(** * CommunityEv: the FBOG API-call middleware ([src/middleware/api.js])

    A shallow embedding of the Redux middleware that interprets actions
    carrying a [CALL_FBOG] call descriptor, and of the promise chain built by
    [callFbog].  JavaScript values are an inductive type, objects are ordered
    property lists, and the calls the middleware makes to its collaborators
    ([store.getState], a function-valued endpoint, [next], [fbsdk.fBfetch])
    are recorded in an event log carried by a small log-and-exception monad. *)

From Stdlib Require Import List String Ascii ZArith Bool Lia DecimalString.
Import ListNotations.
Open Scope string_scope.
Open Scope list_scope.
Set Warnings "-register-all".

(** ** JavaScript values *)

(** Property keys: strings, and symbols such as [CALL_FBOG]. *)
Inductive key : Type :=
| KStr (s : string)
| KSym (n : nat).

(** A normalizr schema: [new Schema(key, {idAttribute})] followed by
    [define(nested)], [arrayOf(item)], or a plain object of schemas. *)
Inductive schema : Type :=
| EntitySchema (entityKey idAttribute : string) (nested : list (string * schema))
| ArraySchema (item : schema)
| ObjectSchema (nested : list (string * schema)).

(** Numbers only matter here through their truthiness and their text as a
    property key, so integers and [NaN] are enough. *)
Inductive value : Type :=
| VUndefined
| VNull
| VBool (b : bool)
| VNum (n : Z)
| VNaN
| VStr (s : string)
| VFun (f : nat)
| VSchema (s : schema)
| VArr (items : list value)
| VObj (fields : list (key * value)).

Definition props : Type := list (key * value).

Definition key_eqb (a b : key) : bool :=
  match a, b with
  | KStr s, KStr t => String.eqb s t
  | KSym n, KSym m => Nat.eqb n m
  | _, _ => false
  end.

(** ** Objects as ordered property lists

    A property list reads like an object literal: when a key is written
    twice, the later entry is the one the object holds. *)

Fixpoint lookup (k : key) (ps : props) : option value :=
  match ps with
  | [] => None
  | (k', v) :: ps' =>
      match lookup k ps' with
      | Some w => Some w
      | None => if key_eqb k k' then Some v else None
      end
  end.

Definition has_key (k : key) (ps : props) : bool :=
  existsb (fun p => key_eqb k (fst p)) ps.

(** [o[k] = v]: an existing property keeps its place, a new one is added last. *)
Definition set (k : key) (v : value) (ps : props) : props :=
  if has_key k ps
  then map (fun p => if key_eqb k (fst p) then (fst p, v) else p) ps
  else ps ++ [(k, v)].

(** [delete o[k]] *)
Definition delete (k : key) (ps : props) : props :=
  filter (fun p => negb (key_eqb k (fst p))) ps.

(** [Object.assign(target, source)] *)
Definition assign (target source : props) : props :=
  fold_left (fun t p => set (fst p) (snd p) t) source target.

(** [o[k]] of an own property: [undefined] when the object has none. *)
Definition field (k : key) (ps : props) : value :=
  match lookup k ps with
  | Some w => w
  | None => VUndefined
  end.

(** ** Operators *)

Inductive jstype : Type :=
| TUndefined | TObject | TBoolean | TNumber | TString | TFunction.

Definition typeof (v : value) : jstype :=
  match v with
  | VUndefined => TUndefined
  | VNull => TObject
  | VBool _ => TBoolean
  | VNum _ | VNaN => TNumber
  | VStr _ => TString
  | VFun _ => TFunction
  | VSchema _ | VArr _ | VObj _ => TObject
  end.

Definition is_string (v : value) : bool :=
  match v with VStr _ => true | _ => false end.

Definition is_function (v : value) : bool :=
  match v with VFun _ => true | _ => false end.

(** ToBoolean *)
Definition truthy (v : value) : bool :=
  match v with
  | VUndefined | VNull | VNaN => false
  | VBool b => b
  | VNum n => negb (Z.eqb n 0)
  | VStr s => negb (String.eqb s "")
  | VFun _ | VSchema _ | VArr _ | VObj _ => true
  end.

(** ** Completions and the event log *)

Inductive result (A : Type) : Type :=
| Return (a : A)
| Throw (e : value).
Arguments Return {A} a.
Arguments Throw {A} e.

(** [new Error(msg)] and the engine's [TypeError]. *)
Definition mkError (name msg : string) : value :=
  VObj [(KStr "name", VStr name); (KStr "message", VStr msg)].

Definition Error (msg : string) : value := mkError "Error" msg.

Definition TypeError : value :=
  mkError "TypeError" "Cannot read property of undefined or null".

(** [v[k]].  Reading a property of [undefined] or [null] throws; of the
    built-in properties of arrays and strings only [length] is modelled, the
    program reads no other. *)
Definition get_prop (v : value) (k : key) : result value :=
  match v with
  | VUndefined | VNull => Throw TypeError
  | VObj ps => Return (field k ps)
  | VArr xs =>
      Return (if key_eqb k (KStr "length") then VNum (Z.of_nat (List.length xs))
              else VUndefined)
  | VStr s =>
      Return (if key_eqb k (KStr "length") then VNum (Z.of_nat (String.length s))
              else VUndefined)
  | _ => Return VUndefined
  end.

(** What the middleware does to the world around it. *)
Inductive event : Type :=
| EGetState                                (* store.getState() *)
| ECallEndpoint (f : nat) (state : value)  (* endpoint(state) *)
| ENext (action : value)                   (* next(action) *)
| EFetch (endpoint : value).               (* fbsdk.fBfetch(endpoint) *)

(** A computation: the events it performed, and how it completed. *)
Definition M (A : Type) : Type := (list event * result A)%type.

Definition ret {A} (a : A) : M A := ([], Return a).

Definition throw {A} (e : value) : M A := ([], Throw e).

Definition bind {A B} (c : M A) (k : A -> M B) : M B :=
  match c with
  | (l, Return a) => let (l', r) := k a in (l ++ l', r)
  | (l, Throw e) => (l, Throw e)
  end.

Definition emit (e : event) : M unit := ([e], Return tt).

Definition lift {A} (r : result A) : M A := ([], r).

Notation "x <- c ;; k" := (bind c (fun x => k))
  (at level 61, c at next level, right associativity).
Notation "c ;;; k" := (bind c (fun _ => k))
  (at level 61, right associativity).

(** How a promise settles. *)
Inductive settled : Type :=
| Fulfilled (v : value)
| Rejected (e : value).

(** A [then] callback that returns fulfils the derived promise; one that
    throws, or returns [Promise.reject(e)], rejects it. *)
Definition settle_with (c : M value) : list event * settled :=
  match c with
  | (l, Return v) => (l, Fulfilled v)
  | (l, Throw e) => (l, Rejected e)
  end.

(** ** The collaborators of the middleware *)

(** Modelled from the spec: [fbsdk.fBfetch] ([../lib/fbsdk]) is not part of
    the sources; it is "a fetch capability taking an endpoint string and
    returning an asynchronous result with fields {ok, data}" that "runs to
    completion or failure", so [fBfetch] gives, for an endpoint, how the
    promise it returns settles.  [camelizeKeys] (humps) and [normalize]
    (normalizr) are imported packages and may throw.  The store, a function
    valued endpoint and [next] are the caller's and return a value. *)
Record env : Type := {
  getState : value;
  call_fn : nat -> value -> value;
  next : value -> value;
  fBfetch : value -> settled;
  camelizeKeys : value -> result value;
  normalize : value -> value -> result value
}.

(** Action key that carries API call info. *)
Definition CALL_FBOG : key := KSym 0.

Definition placeholder : string := "Something bad happened".
Definition msg_endpoint : string := "Specify a string endpoint URL.".
Definition msg_schema : string := "Specify one of the exported Schemas.".
Definition msg_three : string := "Expected an array of three action types.".
Definition msg_strings : string := "Expected action types to be strings.".

Definition index_key (i : nat) : string := NilZero.string_of_uint (Nat.to_uint i).

(** The elements of an array under their index keys, from index [i] on. *)
Fixpoint indexed (i : nat) (xs : list value) : list (string * value) :=
  match xs with
  | [] => []
  | x :: xs' => (index_key i, x) :: indexed (S i) xs'
  end.

(** The characters of a string, as the elements of an array. *)
Fixpoint chars (s : string) : list value :=
  match s with
  | EmptyString => []
  | String c s' => VStr (String c EmptyString) :: chars s'
  end.

(** A string-keyed entry as a property. *)
Definition kv (p : string * value) : key * value := (KStr (fst p), snd p).

(** The own enumerable properties of a value, as [Object.assign] copies
    them from a source. *)
Definition own_props (v : value) : props :=
  match v with
  | VObj ps => ps
  | VArr xs => map kv (indexed 0 xs)
  | VStr s => map kv (indexed 0 (chars s))
  | _ => []
  end.

Section Middleware.

Variable E : env.

Definition do_next (a : value) : M value :=
  emit (ENext a) ;;; ret (next E a).

(** [callFbog]'s [then] callback, run on the response of [fBfetch]. *)
Definition callFbog_then (sch response : value) : M value :=
  data <- lift (get_prop response (KStr "data")) ;;
  ok <- lift (get_prop response (KStr "ok")) ;;
  if negb (truthy ok) then throw data
  else
    camelizedJson <- lift (camelizeKeys E data) ;;
    normalized <- lift (normalize E camelizedJson sch) ;;
    ret (VObj (assign [] (own_props normalized))).

(** How the promise returned by [callFbog] settles once the promise of
    [fBfetch] has settled as [s]. *)
Definition callFbog_settle (sch : value) (s : settled) : list event * settled :=
  match s with
  | Fulfilled response => settle_with (callFbog_then sch response)
  | Rejected e => ([], Rejected e)
  end.

(** [actionWith(data)] *)
Definition actionWith (action : value) (data : props) : value :=
  let finalAction := assign (assign [] (own_props action)) data in
  VObj (delete CALL_FBOG finalAction).

(** What the closure passed to [then] keeps: the action, the resolved
    endpoint, the schema and the two terminal action types. *)
Record pending : Type := {
  p_action : value;
  p_endpoint : value;
  p_schema : value;
  p_successType : value;
  p_failureType : value
}.

(** The synchronous outcome of a call: the result of [next(action)], or the
    promise built by [callFbog(...).then(...)]. *)
Inductive sync_result : Type :=
| Passed (v : value)
| Handle (p : pending).

(** [endpoint = endpoint(store.getState())] *)
Definition resolve_endpoint (endpoint : value) : M value :=
  match endpoint with
  | VFun f =>
      emit EGetState ;;;
      emit (ECallEndpoint f (getState E)) ;;;
      ret (call_fn E f (getState E))
  | _ => ret endpoint
  end.

(** [!Array.isArray(types) || types.length !== 3] *)
Definition not_three (types : value) : bool :=
  match types with
  | VArr xs => negb (Nat.eqb (List.length xs) 3)
  | _ => true
  end.

(** [types.every(type => typeof type === 'string')] *)
Definition every_string (types : value) : bool :=
  match types with
  | VArr xs => forallb is_string xs
  | _ => false
  end.

(** [types[i]] of the destructuring [[requestType, successType, failureType] = types] *)
Definition item (types : value) (i : nat) : value :=
  match types with
  | VArr xs => nth i xs VUndefined
  | _ => VUndefined
  end.

(** The body of the middleware up to and including [callFbog(endpoint, schema)]. *)
Definition middleware (action : value) : M sync_result :=
  callAPI <- lift (get_prop action CALL_FBOG) ;;
  match typeof callAPI with
  | TUndefined => v <- do_next action ;; ret (Passed v)
  | _ =>
      endpoint0 <- lift (get_prop callAPI (KStr "endpoint")) ;;
      sch <- lift (get_prop callAPI (KStr "schema")) ;;
      types <- lift (get_prop callAPI (KStr "types")) ;;
      endpoint <- (if is_function endpoint0 then resolve_endpoint endpoint0
                   else ret endpoint0) ;;
      if negb (is_string endpoint) then throw (Error msg_endpoint)
      else if negb (truthy sch) then throw (Error msg_schema)
      else if not_three types then throw (Error msg_three)
      else if negb (every_string types) then throw (Error msg_strings)
      else
        let requestType := item types 0 in
        let successType := item types 1 in
        let failureType := item types 2 in
        do_next (actionWith action [(KStr "type", requestType)]) ;;;
        emit (EFetch endpoint) ;;;
        ret (Handle {| p_action := action; p_endpoint := endpoint;
                       p_schema := sch; p_successType := successType;
                       p_failureType := failureType |})
  end.

(** [error.message || 'Something bad happened'] *)
Definition error_text (error : value) : result value :=
  match get_prop error (KStr "message") with
  | Return m => Return (if truthy m then m else VStr placeholder)
  | Throw e => Throw e
  end.

(** The two reactions passed to [then], run when the promise of [callFbog]
    has settled as [s]; the result is how the returned promise settles. *)
Definition reactions (p : pending) (s : settled) : list event * settled :=
  match s with
  | Fulfilled response =>
      settle_with
        (do_next (actionWith (p_action p)
                    [(KStr "response", response); (KStr "type", p_successType p)]))
  | Rejected error =>
      settle_with
        (text <- lift (error_text error) ;;
         do_next (actionWith (p_action p)
                    [(KStr "type", p_failureType p); (KStr "error", text)]))
  end.

(** Everything that runs after the promise of [fBfetch] has settled as [s]. *)
Definition on_settle (p : pending) (s : settled) : list event * settled :=
  let (l1, s1) := callFbog_settle (p_schema p) s in
  let (l2, s2) := reactions p s1 in
  (l1 ++ l2, s2).

(** The outcome of one dispatch, once every promise has settled. *)
Inductive outcome : Type :=
| Returned (v : value)
| Thrown (e : value)
| Settled (s : settled).

(** One whole dispatch: the synchronous events, the events after the fetch
    has settled, and the outcome. *)
Definition run (action : value) : list event * list event * outcome :=
  match middleware action with
  | (l, Throw e) => (l, [], Thrown e)
  | (l, Return (Passed v)) => (l, [], Returned v)
  | (l, Return (Handle p)) =>
      let (l', s) := on_settle p (fBfetch E (p_endpoint p)) in
      (l, l', Settled s)
  end.

End Middleware.

(** The actions forwarded to [next], in order. *)
Fixpoint forwarded (l : list event) : list value :=
  match l with
  | [] => []
  | ENext a :: l' => a :: forwarded l'
  | _ :: l' => forwarded l'
  end.

(** The endpoints fetched, in order. *)
Fixpoint fetched (l : list event) : list value :=
  match l with
  | [] => []
  | EFetch u :: l' => u :: fetched l'
  | _ :: l' => fetched l'
  end.

(** The calls of a function-valued endpoint, in order. *)
Fixpoint endpoint_calls (l : list event) : list (nat * value) :=
  match l with
  | [] => []
  | ECallEndpoint f st :: l' => (f, st) :: endpoint_calls l'
  | _ :: l' => endpoint_calls l'
  end.

(** ** The imported packages *)

(** The string-keyed entries of a property list. *)
Fixpoint string_keyed (ps : props) : list (string * value) :=
  match ps with
  | [] => []
  | (KStr s, v) :: ps' => (s, v) :: string_keyed ps'
  | (KSym _, _) :: ps' => string_keyed ps'
  end.

(** The own enumerable string-keyed properties of a value, in [for..in]
    order: each key once, holding its value. *)
Definition enumerate (obj : value) : list (string * value) :=
  match obj with
  | VObj ps => string_keyed (assign [] ps)
  | VArr xs => indexed 0 xs
  | _ => []
  end.

(** [v === Object(v)], lodash's [isObject]. *)
Definition is_object (v : value) : bool :=
  match v with
  | VFun _ | VSchema _ | VArr _ | VObj _ => true
  | _ => false
  end.

(** *** humps

    [camelizeKeys] comes from the humps package, which is not part of the
    sources; the spec only says that it "converts response keys to a
    consistent (camel-case) naming convention". *)
Module Humps.

Definition is_space (c : ascii) : bool :=
  let n := nat_of_ascii c in
  ((9 <=? n) && (n <=? 13) || (n =? 32))%nat.

Definition is_separator (c : ascii) : bool :=
  is_space c || Ascii.eqb c "-" || Ascii.eqb c "_".

Definition to_upper (c : ascii) : ascii :=
  let n := nat_of_ascii c in
  if ((97 <=? n) && (n <=? 122))%nat then ascii_of_nat (n - 32) else c.

Definition to_lower (c : ascii) : ascii :=
  let n := nat_of_ascii c in
  if ((65 <=? n) && (n <=? 90))%nat then ascii_of_nat (n + 32) else c.

(** [string.replace(/[\-_\s]+(.)?/g, ...)]; [up] tells that a run of
    separators has just been dropped. *)
Fixpoint replace (up : bool) (s : string) : string :=
  match s with
  | EmptyString => EmptyString
  | String c s' =>
      if is_separator c then replace true s'
      else String (if up then to_upper c else c) (replace false s')
  end.

Definition is_digit (c : ascii) : bool :=
  let n := nat_of_ascii c in ((48 <=? n) && (n <=? 57))%nat.

Definition is_hex (c : ascii) : bool :=
  let n := nat_of_ascii c in
  is_digit c || ((65 <=? n) && (n <=? 70))%nat || ((97 <=? n) && (n <=? 102))%nat.

Definition is_octal (c : ascii) : bool :=
  let n := nat_of_ascii c in ((48 <=? n) && (n <=? 55))%nat.

Definition is_binary (c : ascii) : bool :=
  Ascii.eqb c "0" || Ascii.eqb c "1".

Fixpoint all_chars (p : ascii -> bool) (s : string) : bool :=
  match s with
  | EmptyString => true
  | String c s' => p c && all_chars p s'
  end.

Definition some_chars (p : ascii -> bool) (s : string) : bool :=
  match s with
  | EmptyString => false
  | _ => all_chars p s
  end.

Fixpoint drop_while (p : ascii -> bool) (s : string) : string :=
  match s with
  | EmptyString => EmptyString
  | String c s' => if p c then drop_while p s' else s
  end.

Fixpoint rev_string (acc s : string) : string :=
  match s with
  | EmptyString => acc
  | String c s' => rev_string (String c acc) s'
  end.

Definition trim (s : string) : string :=
  rev_string "" (drop_while is_space (rev_string "" (drop_while is_space s))).

Definition drop_sign (s : string) : string :=
  match s with
  | String c s' => if Ascii.eqb c "+" || Ascii.eqb c "-" then s' else s
  | EmptyString => s
  end.

(** An optional exponent part, then the end of the text. *)
Definition exponent_end (s : string) : bool :=
  match s with
  | EmptyString => true
  | String c s' =>
      (Ascii.eqb c "e" || Ascii.eqb c "E") && some_chars is_digit (drop_sign s')
  end.

(** An unsigned decimal literal: [1], [1.], [1.5], [.5], each with an
    optional exponent. *)
Definition decimal (s : string) : bool :=
  match s with
  | EmptyString => false
  | String c s' =>
      if is_digit c then
        match drop_while is_digit s' with
        | String "." t => exponent_end (drop_while is_digit t)
        | t => exponent_end t
        end
      else if Ascii.eqb c "." then
        match s' with
        | String d t => is_digit d && exponent_end (drop_while is_digit t)
        | EmptyString => false
        end
      else false
  end.

Definition radix (s : string) : bool :=
  match s with
  | String "0" (String c t) =>
      if Ascii.eqb c "x" || Ascii.eqb c "X" then some_chars is_hex t
      else if Ascii.eqb c "o" || Ascii.eqb c "O" then some_chars is_octal t
      else if Ascii.eqb c "b" || Ascii.eqb c "B" then some_chars is_binary t
      else false
  | _ => false
  end.

(** [_isNumerical]: [string - 0] is not [NaN]. *)
Definition is_numerical (s : string) : bool :=
  let t := trim s in
  String.eqb t "" || radix t || String.eqb (drop_sign t) "Infinity"
  || decimal (drop_sign t).

(** Modelled from the spec: [camelize] of humps, absent from the sources,
    the "consistent (camel-case) naming convention" of a key: a run of [-],
    [_] or white space is dropped and the character after it is put in
    upper case, the first character is put in lower case, and a key that
    reads as a number is kept. *)
Definition camelize (s : string) : string :=
  if is_numerical s then s
  else
    match replace false s with
    | EmptyString => EmptyString
    | String c s' => String (to_lower c) s'
    end.

(** [output[camelize(key)] = ...] for each own key of the object. *)
Definition camelize_entry (p : string * value) : key * value :=
  (KStr (camelize (fst p)), snd p).

(** Modelled from the spec: [camelizeKeys] of humps, absent from the
    sources: "convert response keys to a consistent (camel-case) naming
    convention", through nested objects and arrays. *)
Fixpoint camelizeKeys (v : value) : value :=
  match v with
  | VArr xs => VArr (map camelizeKeys xs)
  | VObj ps =>
      let converted :=
        (fix each (ps : props) : props :=
           match ps with
           | [] => []
           | (k, w) :: ps' => (k, camelizeKeys w) :: each ps'
           end) ps in
      VObj (assign [] (map camelize_entry (enumerate (VObj converted))))
  | _ => v
  end.

End Humps.

(** *** normalizr

    [normalize], [Schema] and [arrayOf] come from the normalizr package,
    which is not part of the sources. *)
Module Normalizr.

(** ToString, as used for a computed property key. *)
Fixpoint to_key (v : value) : string :=
  match v with
  | VUndefined => "undefined"
  | VNull => "null"
  | VBool true => "true"
  | VBool false => "false"
  | VNum n => NilZero.string_of_int (Z.to_int n)
  | VNaN => "NaN"
  | VStr s => s
  | VFun _ => "function"
  | VSchema _ | VObj _ => "[object Object]"
  | VArr xs =>
      (fix join (xs : list value) : string :=
         match xs with
         | [] => ""
         | x :: xs' =>
             let t := match x with
                      | VUndefined | VNull => ""
                      | _ => to_key x
                      end in
             match xs' with
             | [] => t
             | _ => (t ++ "," ++ join xs')%string
             end
         end) xs
  end.

(** [visit(_, schema, bag)] for one schema: the value put in place of the
    visited one, and the bag afterwards. *)
Definition visitor : Type := value -> props -> value * props.

(** [visit(obj[key], schema[key], bag)] *)
Definition visit_field (nested : string -> option visitor)
    (k : string) (v : value) (bag : props) : value * props :=
  match nested k with
  | Some f => f v bag
  | None => (v, bag)
  end.

(** One turn of the loop of [visitObject]:
    [normalized[key] = visit(obj[key], schema[key], bag)]. *)
Definition visit_own (nested : string -> option visitor)
    (st : props * props) (p : string * value) : props * props :=
  let (entity, bag') := visit_field nested (fst p) (snd p) (snd st) in
  (set (KStr (fst p)) entity (fst st), bag').

Definition visitObject (nested : string -> option visitor)
    (obj : value) (bag : props) : props * props :=
  fold_left (visit_own nested) (enumerate obj) ([], bag).

(** [defaultMergeIntoEntity]: a key the stored record lacks is added; one
    it has keeps its (equal, or earlier) value. *)
Definition mergeIntoEntity (stored normalized : props) : props :=
  fold_left
    (fun a p => if has_key (fst p) a then a else set (fst p) (snd p) a)
    normalized stored.

Definition table (entityKey : string) (bag : props) : props :=
  match lookup (KStr entityKey) bag with
  | Some t => own_props t
  | None => []
  end.

Definition visitEntity (entityKey idAttribute : string)
    (nested : string -> option visitor) (entity : value) (bag : props)
    : value * props :=
  let id := match get_prop entity (KStr idAttribute) with
            | Return v => v
            | Throw _ => VUndefined
            end in
  let idk := KStr (to_key id) in
  let bag1 := if has_key (KStr entityKey) bag then bag
              else set (KStr entityKey) (VObj []) bag in
  let bag2 := if has_key idk (table entityKey bag1) then bag1
              else set (KStr entityKey)
                     (VObj (set idk (VObj []) (table entityKey bag1))) bag1 in
  let (normalized, bag3) := visitObject nested entity bag2 in
  let stored := match lookup idk (table entityKey bag3) with
                | Some r => own_props r
                | None => []
                end in
  (id, set (KStr entityKey)
         (VObj (set idk (VObj (mergeIntoEntity stored normalized))
                  (table entityKey bag3))) bag3).

Fixpoint visit_items (f : visitor) (xs : list value) (bag : props)
    : list value * props :=
  match xs with
  | [] => ([], bag)
  | x :: xs' =>
      let (y, bag1) := f x bag in
      let (ys, bag2) := visit_items f xs' bag1 in
      (y :: ys, bag2)
  end.

Definition visitIterable (f : visitor) (obj : value) (bag : props)
    : value * props :=
  match obj with
  | VArr xs => let (ys, bag') := visit_items f xs bag in (VArr ys, bag')
  | _ =>
      let (objMap, bag') := visitObject (fun _ => Some f) obj bag in
      (VObj objMap, bag')
  end.

(** Modelled from the spec: the visit of normalizr, absent from the
    sources: an entity is put in the table of its kind under its id and
    replaced by that id ("references to nested entities replaced by their
    id"), an array schema does so for each element.  Where the spec is
    silent (a record without id, an entity schema met by an array) the
    record is stored under the text of whatever its id attribute holds. *)
Fixpoint visit (s : schema) : visitor :=
  let fix fields (ds : list (string * schema)) (k : string) : option visitor :=
    match ds with
    | [] => None
    | (k', s') :: ds' =>
        match fields ds' k with
        | Some f => Some f
        | None => if String.eqb k k' then Some (visit s') else None
        end
    end in
  fun obj bag =>
    if negb (is_object obj) then (obj, bag)
    else
      match s with
      | EntitySchema entityKey idAttribute nested =>
          visitEntity entityKey idAttribute (fields nested) obj bag
      | ArraySchema item => visitIterable (visit item) obj bag
      | ObjectSchema nested =>
          let (normalized, bag') := visitObject (fields nested) obj bag in
          (VObj normalized, bag')
      end.

(** The schema a value passed as [schema] stands for: a schema built by
    the package, or a plain object (array, function) whose properties are. *)
Fixpoint schema_of (v : value) : option schema :=
  let fix each (ps : list (key * value)) : list (string * schema) :=
    match ps with
    | [] => []
    | (KStr k, w) :: ps' =>
        match schema_of w with
        | Some s => (k, s) :: each ps'
        | None => each ps'
        end
    | (KSym _, _) :: ps' => each ps'
    end in
  match v with
  | VSchema s => Some s
  | VObj ps => Some (ObjectSchema (each ps))
  | VFun _ => Some (ObjectSchema [])
  | _ => None
  end.

(** Modelled from the spec: [normalize] of normalizr, absent from the
    sources.  The result is "a mapping with two parts: entities (mapping
    from entity-type name to a mapping from id to flattened entity record)
    and result (the id or ordered list of ids representing the top-level
    shape of the original response)"; a value that is not an object, or a
    schema that is none, is refused with an error. *)
Definition normalize (obj sch : value) : result value :=
  if negb (is_object obj)
  then Throw (Error "Normalize accepts an object or an array as its input.")
  else
    match schema_of sch with
    | Some s =>
        let (res, bag) := visit s obj [] in
        Return (VObj [(KStr "entities", VObj bag); (KStr "result", res)])
    | None => Throw (Error "Normalize accepts an object for schema.")
    end.

End Normalizr.

(** ** The exported schemas *)

Definition eventSchema : schema := EntitySchema "events" "id" [].

Definition pageSchema : schema :=
  EntitySchema "pages" "id" [("events", eventSchema)].

Module Schemas.
Definition EVENT : value := VSchema eventSchema.
Definition EVENT_ARRAY : value := VSchema (ArraySchema eventSchema).
Definition PAGE : value := VSchema pageSchema.
Definition PAGE_ARRAY : value := VSchema (ArraySchema pageSchema).
End Schemas.

(** The middleware with the two packages as modelled above. *)
Definition with_packages (st : value) (fn : nat -> value -> value)
    (nx : value -> value) (ft : value -> settled) : env :=
  {| getState := st; call_fn := fn; next := nx; fBfetch := ft;
     camelizeKeys := fun v => Return (Humps.camelizeKeys v);
     normalize := Normalizr.normalize |}.

(** ** Reading a call descriptor *)

(** The endpoint after [endpoint = endpoint(store.getState())]. *)
Definition resolved (E : env) (endpoint : value) : value :=
  match endpoint with
  | VFun f => call_fn E f (getState E)
  | _ => endpoint
  end.

(** The events of resolving the endpoint. *)
Definition resolving (E : env) (endpoint : value) : list event :=
  match endpoint with
  | VFun f => [EGetState; ECallEndpoint f (getState E)]
  | _ => []
  end.

(** [types] is an array of three strings. *)
Definition valid_types (types : value) : bool :=
  negb (not_three types) && every_string types.

(** A descriptor that passes the four checks. *)
Definition valid_descriptor (E : env) (d : props) : bool :=
  is_string (resolved E (field (KStr "endpoint") d))
  && truthy (field (KStr "schema") d)
  && valid_types (field (KStr "types") d).

Definition requestType (d : props) : value := item (field (KStr "types") d) 0.
Definition successType (d : props) : value := item (field (KStr "types") d) 1.
Definition failureType (d : props) : value := item (field (KStr "types") d) 2.

(** The call kept by the promise chain for a valid descriptor. *)
Definition pending_of (E : env) (action : value) (d : props) : pending :=
  {| p_action := action;
     p_endpoint := resolved E (field (KStr "endpoint") d);
     p_schema := field (KStr "schema") d;
     p_successType := successType d;
     p_failureType := failureType d |}.

(** The four configuration errors. *)
Definition configuration_errors : list value :=
  [Error msg_endpoint; Error msg_schema; Error msg_three; Error msg_strings].





(** [undefined] and [null], the values that have no properties. *)
Definition nullish (v : value) : bool :=
  match v with
  | VUndefined | VNull => true
  | _ => false
  end.

(** ** Reading a normalized response *)

(** [schema[key]] for the page schema: only [events] has a nested schema. *)
Definition page_fields (k : string) : option Normalizr.visitor :=
  if String.eqb k "events" then Some (Normalizr.visit eventSchema) else None.

(** What the page record holds for a field of the page. *)
Definition page_replace (k : string) (v : value) : value :=
  if String.eqb k "events" && is_object v
  then match get_prop v (KStr "id") with Return i => i | Throw _ => VUndefined end
  else v.

(** [response.entities[name]] *)
Definition entity_table (name : string) (response : value) : option value :=
  lookup (KStr name) (own_props (field (KStr "entities") (own_props response))).

(** [response.entities[name][id]] *)
Definition entity (name : string) (id : value) (response : value) : option value :=
  match entity_table name response with
  | Some t => lookup (KStr (Normalizr.to_key id)) (own_props t)
  | None => None
  end.

(** The [response] fields of the forwarded actions that have one. *)
Fixpoint responses (actions : list value) : list value :=
  match actions with
  | [] => []
  | a :: rest =>
      match lookup (KStr "response") (own_props a) with
      | Some r => r :: responses rest
      | None => responses rest
      end
  end.

(** The property as the spec words it, for entity tables named [pages] and
    [events]: the page table is there exactly when the raw top-level object
    has an [id], and a nested [events] list is replaced in the page record
    by the list of the ids of its events, each event being a record of the
    event table. *)
Definition flattened_as_specified (pages events : string)
    (raw response : value) : Prop :=
  ((exists t, entity_table pages response = Some t) <->
   (exists i, lookup (KStr "id") (own_props raw) = Some i))
  /\ (forall evs,
        lookup (KStr "events") (own_props raw) = Some (VArr evs) ->
        (exists record,
            entity pages (field (KStr "id") (own_props raw)) response
            = Some (VObj record) /\
            lookup (KStr "events") record
            = Some (VArr (map (fun ev => field (KStr "id") (own_props ev)) evs)))
        /\ (forall ev, In ev evs ->
               entity events (field (KStr "id") (own_props ev)) response = Some ev)).

Definition page_with_events : value :=
  VObj [(KStr "id", VStr "1");
        (KStr "events", VArr [VObj [(KStr "id", VStr "10")];
                              VObj [(KStr "id", VStr "11")]])].

Definition page_without_id : value := VObj [(KStr "name", VStr "Town hall")].

(** ** A sample store and sample actions *)

Definition sample_state : value := VObj [(KStr "token", VStr "abc")].

Definition sample_env (s : settled) : env :=
  with_packages sample_state (fun _ _ => VStr "/me/events")
    (fun _ => VUndefined) (fun _ => s).

Definition sample_descriptor (endpoint sch types : value) : value :=
  VObj [(KStr "endpoint", endpoint); (KStr "schema", sch); (KStr "types", types)].

Definition sample_types : value :=
  VArr [VStr "PAGE_REQUEST"; VStr "PAGE_SUCCESS"; VStr "PAGE_FAILURE"].

Definition sample_action (descriptor : value) : value :=
  VObj [(KStr "type", VStr "LOAD_PAGE"); (CALL_FBOG, descriptor);
        (KStr "login", VStr "acao")].

Definition plain_action : value :=
  VObj [(KStr "type", VStr "RESET"); (KStr "login", VStr "acao")].

Definition envelope (ok data : value) : value :=
  VObj [(KStr "ok", ok); (KStr "data", data)].

(** The responses carried by the actions forwarded after the fetch. *)
Definition success_responses (E : env) (action : value) : list value :=
  responses (forwarded (snd (fst (run E action)))).

Definition page_call : value :=
  sample_action (sample_descriptor (VStr "/me") Schemas.PAGE sample_types).

(** ** Reading a whole run *)

(** The primitive values: they have no own properties to read a descriptor
    or an endpoint from. *)
Definition primitive (v : value) : bool :=
  match v with
  | VBool _ | VNum _ | VNaN | VStr _ => true
  | _ => false
  end.

(** All the events of a run, in order. *)
Definition events_of (r : list event * list event * outcome) : list event :=
  fst (fst r) ++ snd (fst r).

(** What stands for an element of an array of events in [result]: the id of
    an object, anything else as it is. *)
Definition event_ref (v : value) : value :=
  if is_object v
  then match get_prop v (KStr "id") with Return i => i | Throw _ => VUndefined end
  else v.

(** * Properties *)

(** ** Objects *)

Lemma key_eqb_spec (a b : key) : reflect (a = b) (key_eqb a b).
Proof.
  destruct a as [s|n], b as [t|m]; simpl; try (constructor; congruence).
  - destruct (String.eqb_spec s t); constructor; congruence.
  - destruct (Nat.eqb_spec n m); constructor; congruence.
Qed.

Lemma key_eqb_refl (a : key) : key_eqb a a = true.
Proof. destruct (key_eqb_spec a a); congruence. Qed.

(** Decides the key comparisons of a goal and closes it by congruence. *)
Ltac key_cases :=
  repeat match goal with
         | |- context [key_eqb ?a ?b] =>
             destruct (key_eqb_spec a b); try subst
         end;
  try rewrite key_eqb_refl in *; try congruence; try reflexivity.

Lemma has_key_lookup (k : key) (ps : props) :
  has_key k ps = match lookup k ps with Some _ => true | None => false end.
Proof.
  unfold has_key.
  induction ps as [|[k' v] ps IH]; simpl; [reflexivity|].
  rewrite IH. destruct (lookup k ps); [apply orb_true_r|].
  rewrite orb_false_r. destruct (key_eqb k k'); reflexivity.
Qed.

Lemma lookup_app (k : key) (ps qs : props) :
  lookup k (ps ++ qs) =
  match lookup k qs with Some w => Some w | None => lookup k ps end.
Proof.
  induction ps as [|[k' v] ps IH]; simpl.
  - destruct (lookup k qs); reflexivity.
  - rewrite IH. destruct (lookup k qs); reflexivity.
Qed.

Lemma lookup_overwrite (k k0 : key) (v : value) (ps : props) :
  lookup k (map (fun p => if key_eqb k0 (fst p) then (fst p, v) else p) ps) =
  if key_eqb k0 k
  then match lookup k ps with Some _ => Some v | None => None end
  else lookup k ps.
Proof.
  induction ps as [|[k' w] ps IH].
  - simpl. destruct (key_eqb k0 k); reflexivity.
  - cbn [map fst].
    destruct (key_eqb_spec k0 k'); cbn [lookup]; rewrite IH;
      destruct (lookup k ps); key_cases.
Qed.

Lemma lookup_set (k k0 : key) (v : value) (ps : props) :
  lookup k (set k0 v ps) = if key_eqb k0 k then Some v else lookup k ps.
Proof.
  unfold set. rewrite has_key_lookup.
  destruct (lookup k0 ps) eqn:H0.
  - rewrite lookup_overwrite. key_cases. rewrite H0. reflexivity.
  - rewrite lookup_app. simpl. key_cases.
Qed.

Lemma lookup_assign (k : key) (source target : props) :
  lookup k (assign target source) =
  match lookup k source with Some w => Some w | None => lookup k target end.
Proof.
  unfold assign. revert target.
  induction source as [|[k' v] source IH]; intros target; simpl; [reflexivity|].
  rewrite IH, lookup_set.
  destruct (lookup k source); key_cases.
Qed.

Lemma lookup_delete (k k0 : key) (ps : props) :
  lookup k (delete k0 ps) = if key_eqb k0 k then None else lookup k ps.
Proof.
  unfold delete.
  induction ps as [|[k' v] ps IH]; simpl.
  - destruct (key_eqb k0 k); reflexivity.
  - destruct (key_eqb_spec k0 k'); simpl; rewrite ?IH;
      destruct (lookup k ps); key_cases.
Qed.

(** The fields of [actionWith(data)]: those of [data], then those of the
    action, without the call descriptor. *)
Lemma lookup_actionWith (k : key) (ps data : props) :
  lookup k (own_props (actionWith (VObj ps) data)) =
  if key_eqb CALL_FBOG k then None
  else match lookup k data with Some w => Some w | None => lookup k ps end.
Proof.
  unfold actionWith. cbn [own_props].
  rewrite lookup_delete, !lookup_assign. cbn [lookup].
  destruct (key_eqb CALL_FBOG k), (lookup k data), (lookup k ps); reflexivity.
Qed.

(** ** The synchronous part *)

Lemma field_lookup (k : key) (ps : props) (v : value) :
  lookup k ps = Some v -> field k ps = v.
Proof. intros H. unfold field. rewrite H. reflexivity. Qed.

Lemma resolve_endpoint_eq (E : env) (endpoint : value) :
  (if is_function endpoint then resolve_endpoint E endpoint else ret endpoint) =
  (resolving E endpoint, Return (resolved E endpoint)).
Proof. destruct endpoint; reflexivity. Qed.

(** The middleware on an action whose descriptor is an object: the checks in
    the order of the source, then the request action and the fetch. *)
Lemma middleware_descriptor (E : env) (ps d : props) :
  lookup CALL_FBOG ps = Some (VObj d) ->
  middleware E (VObj ps) =
  let endpoint := resolved E (field (KStr "endpoint") d) in
  let types := field (KStr "types") d in
  let l := resolving E (field (KStr "endpoint") d) in
  if negb (is_string endpoint) then (l, Throw (Error msg_endpoint))
  else if negb (truthy (field (KStr "schema") d)) then (l, Throw (Error msg_schema))
  else if not_three types then (l, Throw (Error msg_three))
  else if negb (every_string types) then (l, Throw (Error msg_strings))
  else (l ++ [ENext (actionWith (VObj ps) [(KStr "type", requestType d)]);
              EFetch endpoint],
        Return (Handle (pending_of E (VObj ps) d))).
Proof.
  intros H. unfold middleware.
  cbn [get_prop lift bind app]. rewrite (field_lookup _ _ _ H).
  cbn [typeof get_prop lift bind app].
  rewrite resolve_endpoint_eq. cbn [bind].
  destruct (negb (is_string _)); [cbn; rewrite app_nil_r; reflexivity|].
  destruct (negb (truthy _)); [cbn; rewrite app_nil_r; reflexivity|].
  destruct (not_three _); [cbn; rewrite app_nil_r; reflexivity|].
  destruct (negb (every_string _)); [cbn; rewrite app_nil_r; reflexivity|].
  reflexivity.
Qed.

Lemma middleware_valid (E : env) (ps d : props) :
  lookup CALL_FBOG ps = Some (VObj d) ->
  valid_descriptor E d = true ->
  middleware E (VObj ps) =
  (resolving E (field (KStr "endpoint") d)
     ++ [ENext (actionWith (VObj ps) [(KStr "type", requestType d)]);
         EFetch (resolved E (field (KStr "endpoint") d))],
   Return (Handle (pending_of E (VObj ps) d))).
Proof.
  intros H Hv. rewrite (middleware_descriptor E ps d H). cbv zeta.
  unfold valid_descriptor, valid_types in Hv.
  apply andb_prop in Hv as [Hv Ht]. apply andb_prop in Hv as [He Hs].
  apply andb_prop in Ht as [H3 Hs3].
  rewrite He, Hs, Hs3. cbn [negb].
  destruct (not_three _); [discriminate|reflexivity].
Qed.

(** A descriptor that is neither [undefined] nor an object stops the
    middleware before anything is done. *)
Lemma middleware_not_object (E : env) (ps : props) (d : value) :
  lookup CALL_FBOG ps = Some d ->
  d <> VUndefined ->
  (forall fs, d <> VObj fs) ->
  middleware E (VObj ps) = ([], Throw TypeError) \/
  middleware E (VObj ps) = ([], Throw (Error msg_endpoint)).
Proof.
  intros H Hu Ho. unfold middleware.
  cbn [get_prop lift bind app]. rewrite (field_lookup _ _ _ H).
  destruct d as [| | | | | | | | |fs];
    try congruence; try (right; reflexivity); try (left; reflexivity).
Qed.

Lemma forwarded_app (l l' : list event) :
  forwarded (l ++ l') = forwarded l ++ forwarded l'.
Proof.
  induction l as [|[| | |] l IH]; simpl; rewrite ?IH; reflexivity.
Qed.

Lemma fetched_app (l l' : list event) :
  fetched (l ++ l') = fetched l ++ fetched l'.
Proof.
  induction l as [|[| | |] l IH]; simpl; rewrite ?IH; reflexivity.
Qed.

Lemma endpoint_calls_app (l l' : list event) :
  endpoint_calls (l ++ l') = endpoint_calls l ++ endpoint_calls l'.
Proof.
  induction l as [|[| | |] l IH]; simpl; rewrite ?IH; reflexivity.
Qed.

Lemma resolving_quiet (E : env) (endpoint : value) :
  forwarded (resolving E endpoint) = [] /\ fetched (resolving E endpoint) = [].
Proof. destruct endpoint; split; reflexivity. Qed.

(** ** The promise chain *)

Lemma callFbog_settle_quiet (E : env) (sch : value) (s : settled) :
  fst (callFbog_settle E sch s) = [].
Proof.
  destruct s as [response|e]; [|reflexivity].
  unfold callFbog_settle, callFbog_then.
  destruct (get_prop response (KStr "data")) as [data|]; [|reflexivity].
  destruct (get_prop response (KStr "ok")) as [ok|]; [|reflexivity].
  cbn [lift bind app]. destruct (negb (truthy ok)); [reflexivity|].
  destruct (camelizeKeys E data) as [cj|]; [|reflexivity].
  cbn [lift bind app]. destruct (normalize E cj sch); reflexivity.
Qed.

Lemma on_settle_eq (E : env) (p : pending) (s : settled) :
  on_settle E p s = reactions E p (snd (callFbog_settle E (p_schema p) s)).
Proof.
  unfold on_settle. pose proof (callFbog_settle_quiet E (p_schema p) s) as H.
  destruct (callFbog_settle E (p_schema p) s) as [l1 s1]. simpl in *. subst l1.
  destruct (reactions E p s1). reflexivity.
Qed.

(** What the reactions do: forward a success action, forward a failure
    action, or reject because the rejection value has no properties. *)
Lemma reactions_cases (E : env) (p : pending) (s : settled) :
  (exists response a,
      s = Fulfilled response /\
      a = actionWith (p_action p)
            [(KStr "response", response); (KStr "type", p_successType p)] /\
      reactions E p s = ([ENext a], Fulfilled (next E a)))
  \/ (exists error message a,
      s = Rejected error /\
      get_prop error (KStr "message") = Return message /\
      a = actionWith (p_action p)
            [(KStr "type", p_failureType p);
             (KStr "error", if truthy message then message else VStr placeholder)] /\
      reactions E p s = ([ENext a], Fulfilled (next E a)))
  \/ (exists error,
      s = Rejected error /\ (error = VUndefined \/ error = VNull) /\
      reactions E p s = ([], Rejected TypeError)).
Proof.
  destruct s as [response|error].
  - left. eexists _, _. repeat split.
  - destruct (get_prop error (KStr "message")) as [message|e] eqn:Hm.
    + right; left. exists error, message. eexists. repeat split; [exact Hm|].
      unfold reactions, error_text. rewrite Hm. reflexivity.
    + right; right. exists error.
      assert (Hn : (error = VUndefined \/ error = VNull) /\ e = TypeError).
      { destruct error; simpl in Hm; try discriminate;
          injection Hm as <-; auto. }
      destruct Hn as [Hn ->]. repeat split; [exact Hn|].
      unfold reactions, error_text. rewrite Hm. reflexivity.
Qed.

(** After the fetch has settled the middleware only calls [next], at most once. *)
Lemma on_settle_events (E : env) (p : pending) (s : settled) :
  fetched (fst (on_settle E p s)) = [] /\
  endpoint_calls (fst (on_settle E p s)) = [] /\
  (List.length (forwarded (fst (on_settle E p s))) <= 1)%nat.
Proof.
  rewrite on_settle_eq.
  destruct (reactions_cases E p (snd (callFbog_settle E (p_schema p) s)))
    as [(r & a & _ & _ & ->)|[(e & m & a & _ & _ & _ & ->)|(e & _ & _ & ->)]];
    simpl; repeat split; lia.
Qed.

(** ** Actions without a call descriptor *)

(** C5: an action that has no call descriptor under the marker key is
    forwarded to [next] unmodified, the middleware returns what [next]
    returned, and nothing else happens: the only event is that call of
    [next], so no fetch is performed. *)
Theorem passthrough_without_descriptor (E : env) (ps : props) :
  lookup CALL_FBOG ps = None ->
  run E (VObj ps) = ([ENext (VObj ps)], [], Returned (next E (VObj ps))).
Proof.
  intros H. unfold run, middleware.
  cbn [get_prop lift bind app]. unfold field. rewrite H. reflexivity.
Qed.

Lemma passthrough_without_descriptor_witness :
  lookup CALL_FBOG (own_props plain_action) = None /\
  run (sample_env (Rejected VNull)) plain_action =
  ([ENext plain_action], [], Returned VUndefined).
Proof.
  split; [reflexivity|].
  apply (passthrough_without_descriptor (sample_env (Rejected VNull))).
  reflexivity.
Defined.

(** C9: an action whose marker-key attribute is present but holds
    [undefined] is treated like one without the attribute: it is forwarded
    as it is (attribute included), the result of [next] is returned, and
    there is no validation, no fetch and no derived action. *)
Theorem passthrough_undefined_descriptor (E : env) (ps : props) :
  lookup CALL_FBOG ps = Some VUndefined ->
  run E (VObj ps) = ([ENext (VObj ps)], [], Returned (next E (VObj ps))).
Proof.
  intros H. unfold run, middleware.
  cbn [get_prop lift bind app]. rewrite (field_lookup _ _ _ H). reflexivity.
Qed.

Lemma passthrough_undefined_descriptor_witness :
  lookup CALL_FBOG (own_props (sample_action VUndefined)) = Some VUndefined /\
  run (sample_env (Rejected VNull)) (sample_action VUndefined) =
  ([ENext (sample_action VUndefined)], [], Returned VUndefined).
Proof.
  split; [reflexivity|].
  apply (passthrough_undefined_descriptor (sample_env (Rejected VNull))).
  reflexivity.
Defined.

(** ** Validation of the descriptor *)

Lemma run_throw (E : env) (action : value) (l : list event) (e : value) :
  middleware E action = (l, Throw e) -> run E action = (l, [], Thrown e).
Proof. intros H. unfold run. rewrite H. reflexivity. Qed.

(** C7: when the [types] field of the descriptor is not an array of exactly
    three strings, the middleware throws one of its configuration errors
    synchronously (the outcome is a throw, not a promise), and up to that
    point no action has been forwarded and nothing has been fetched. *)
Theorem malformed_types_throw (E : env) (ps d : props) :
  lookup CALL_FBOG ps = Some (VObj d) ->
  valid_types (field (KStr "types") d) = false ->
  exists l e,
    run E (VObj ps) = (l, [], Thrown e) /\
    In e configuration_errors /\
    forwarded l = [] /\ fetched l = [].
Proof.
  intros H Ht.
  pose proof (middleware_descriptor E ps d H) as Hm. cbv zeta in Hm.
  destruct (resolving_quiet E (field (KStr "endpoint") d)) as [Hf Hg].
  exists (resolving E (field (KStr "endpoint") d)).
  unfold valid_types in Ht. unfold configuration_errors.
  destruct (negb (is_string _));
    [eexists; split; [apply run_throw, Hm|simpl; auto]|].
  destruct (negb (truthy _));
    [eexists; split; [apply run_throw, Hm|simpl; auto]|].
  destruct (not_three _);
    [eexists; split; [apply run_throw, Hm|simpl; auto 6]|].
  simpl in Ht. rewrite Ht in Hm. simpl in Hm.
  eexists; split; [apply run_throw, Hm|simpl; auto 6].
Qed.

Lemma malformed_types_throw_witness :
  exists l e,
    run (sample_env (Rejected VNull))
      (sample_action
         (sample_descriptor (VStr "/me") Schemas.PAGE
            (VArr [VStr "PAGE_REQUEST"; VStr "PAGE_SUCCESS"]))) =
    (l, [], Thrown e) /\
    In e configuration_errors /\
    forwarded l = [] /\ fetched l = [].
Proof.
  eapply (malformed_types_throw (sample_env (Rejected VNull))); reflexivity.
Defined.

(** C10: the checks run in the order endpoint, schema, types.  A descriptor
    whose endpoint does not resolve to a string raises the endpoint error
    whatever its schema and types are; one whose endpoint is fine and whose
    schema is missing raises the schema error whatever its types are; only
    then is a malformed types list reported (its length before its
    elements). *)
Theorem validation_order (E : env) (ps d : props) :
  lookup CALL_FBOG ps = Some (VObj d) ->
  let endpoint := resolved E (field (KStr "endpoint") d) in
  let sch := field (KStr "schema") d in
  let types := field (KStr "types") d in
  let l := resolving E (field (KStr "endpoint") d) in
  (is_string endpoint = false ->
   run E (VObj ps) = (l, [], Thrown (Error msg_endpoint)))
  /\ (is_string endpoint = true -> truthy sch = false ->
      run E (VObj ps) = (l, [], Thrown (Error msg_schema)))
  /\ (is_string endpoint = true -> truthy sch = true -> not_three types = true ->
      run E (VObj ps) = (l, [], Thrown (Error msg_three)))
  /\ (is_string endpoint = true -> truthy sch = true -> not_three types = false ->
      every_string types = false ->
      run E (VObj ps) = (l, [], Thrown (Error msg_strings))).
Proof.
  intros H endpoint sch types l.
  pose proof (middleware_descriptor E ps d H) as Hm. cbv zeta in Hm.
  fold endpoint sch types l in Hm.
  repeat split; intros; apply run_throw; rewrite Hm;
    repeat match goal with Hc : _ = _ :> bool |- _ => rewrite Hc; clear Hc end;
    reflexivity.
Qed.

Lemma validation_order_witness :
  run (sample_env (Rejected VNull))
    (sample_action (sample_descriptor (VNum 7) VUndefined (VArr [VNum 1]))) =
  ([], [], Thrown (Error msg_endpoint))
  /\ run (sample_env (Rejected VNull))
       (sample_action (sample_descriptor (VStr "/me") VUndefined (VArr [VNum 1]))) =
     ([], [], Thrown (Error msg_schema)).
Proof.
  split.
  - apply (validation_order (sample_env (Rejected VNull))
             (own_props (sample_action
                (sample_descriptor (VNum 7) VUndefined (VArr [VNum 1]))))
             (own_props (sample_descriptor (VNum 7) VUndefined (VArr [VNum 1])))
             eq_refl); reflexivity.
  - apply (validation_order (sample_env (Rejected VNull))
             (own_props (sample_action
                (sample_descriptor (VStr "/me") VUndefined (VArr [VNum 1]))))
             (own_props (sample_descriptor (VStr "/me") VUndefined (VArr [VNum 1])))
             eq_refl); reflexivity.
Defined.

(** ** The endpoint *)

Lemma run_valid (E : env) (ps d : props) :
  lookup CALL_FBOG ps = Some (VObj d) ->
  valid_descriptor E d = true ->
  run E (VObj ps) =
  (resolving E (field (KStr "endpoint") d)
     ++ [ENext (actionWith (VObj ps) [(KStr "type", requestType d)]);
         EFetch (resolved E (field (KStr "endpoint") d))],
   fst (on_settle E (pending_of E (VObj ps) d)
          (fBfetch E (resolved E (field (KStr "endpoint") d)))),
   Settled (snd (on_settle E (pending_of E (VObj ps) d)
                   (fBfetch E (resolved E (field (KStr "endpoint") d)))))).
Proof.
  intros H Hv. unfold run. rewrite (middleware_valid E ps d H Hv).
  cbn [p_endpoint pending_of]. destruct (on_settle _ _ _). reflexivity.
Qed.

(** Every run that does not reach the fetch has thrown. *)
Lemma run_invalid (E : env) (ps d : props) :
  lookup CALL_FBOG ps = Some (VObj d) ->
  valid_descriptor E d = false ->
  exists e,
    run E (VObj ps) = (resolving E (field (KStr "endpoint") d), [], Thrown e).
Proof.
  intros H Hv.
  pose proof (middleware_descriptor E ps d H) as Hm. cbv zeta in Hm.
  unfold valid_descriptor, valid_types in Hv.
  destruct (is_string _); cbn [negb] in Hm;
    [|eexists; apply run_throw, Hm].
  destruct (truthy _); cbn [negb] in Hm;
    [|eexists; apply run_throw, Hm].
  destruct (not_three _); [eexists; apply run_throw, Hm|].
  destruct (every_string _); [discriminate|].
  eexists; apply run_throw, Hm.
Qed.

Lemma run_endpoint_error (E : env) (ps d : props) :
  lookup CALL_FBOG ps = Some (VObj d) ->
  is_string (resolved E (field (KStr "endpoint") d)) = false ->
  run E (VObj ps) =
  (resolving E (field (KStr "endpoint") d), [], Thrown (Error msg_endpoint)).
Proof.
  intros H Hs. apply run_throw.
  rewrite (middleware_descriptor E ps d H). cbv zeta. rewrite Hs. reflexivity.
Qed.

(** C6: a function-valued endpoint is called exactly once, with the state
    returned by [store.getState()], and when the descriptor is valid the
    value it returned is what is fetched (once); an endpoint that is not a
    function is never called.  When the endpoint, after this call, is not a
    string, the middleware throws [Error('Specify a string endpoint URL.')]
    synchronously, before anything is forwarded or fetched. *)
Theorem endpoint_resolution (E : env) (ps d : props) :
  lookup CALL_FBOG ps = Some (VObj d) ->
  exists l l' o,
    run E (VObj ps) = (l, l', o) /\
    endpoint_calls (l ++ l') =
      match field (KStr "endpoint") d with
      | VFun f => [(f, getState E)]
      | _ => []
      end /\
    (valid_descriptor E d = true ->
     fetched (l ++ l') = [resolved E (field (KStr "endpoint") d)]) /\
    (is_string (resolved E (field (KStr "endpoint") d)) = false ->
     o = Thrown (Error msg_endpoint) /\ l' = [] /\
     forwarded l = [] /\ fetched l = []).
Proof.
  intros H.
  assert (Hc : endpoint_calls (resolving E (field (KStr "endpoint") d)) =
               match field (KStr "endpoint") d with
               | VFun f => [(f, getState E)]
               | _ => []
               end) by (destruct (field (KStr "endpoint") d); reflexivity).
  destruct (resolving_quiet E (field (KStr "endpoint") d)) as [Hf Hg].
  destruct (valid_descriptor E d) eqn:Hv.
  - eexists _, _, _. split; [apply (run_valid E ps d H Hv)|].
    destruct (on_settle_events E (pending_of E (VObj ps) d)
                (fBfetch E (resolved E (field (KStr "endpoint") d))))
      as (Hq & Hcalls & _).
    rewrite !endpoint_calls_app, !fetched_app, Hq, Hcalls, Hc, Hg.
    split; [simpl; rewrite !app_nil_r; reflexivity|].
    split; [reflexivity|].
    intros Hs. unfold valid_descriptor in Hv. rewrite Hs in Hv. discriminate.
  - destruct (run_invalid E ps d H Hv) as [e He].
    eexists _, _, _. split; [exact He|].
    rewrite app_nil_r. split; [exact Hc|].
    split; [discriminate|].
    intros Hs. rewrite (run_endpoint_error E ps d H Hs) in He.
    injection He as <-. auto.
Qed.

Lemma endpoint_resolution_witness :
  exists l l' o,
    run (sample_env (Fulfilled (envelope (VBool false) VNull)))
      (sample_action (sample_descriptor (VFun 0) Schemas.PAGE sample_types)) =
    (l, l', o) /\
    endpoint_calls (l ++ l') = [(0%nat, sample_state)] /\
    fetched (l ++ l') = [VStr "/me/events"].
Proof.
  destruct (endpoint_resolution
              (sample_env (Fulfilled (envelope (VBool false) VNull)))
              (own_props (sample_action
                 (sample_descriptor (VFun 0) Schemas.PAGE sample_types)))
              (own_props (sample_descriptor (VFun 0) Schemas.PAGE sample_types))
              eq_refl) as (l & l' & o & Hr & Hc & Hf & _).
  exists l, l', o.
  split; [exact Hr|]. split; [exact Hc|]. apply Hf. reflexivity.
Defined.

(** ** The forwarded actions *)







(** ** Request, then success or failure *)

Lemma type_of_actionWith (ps data : props) (t : value) :
  lookup (KStr "type") data = Some t ->
  field (KStr "type") (own_props (actionWith (VObj ps) data)) = t.
Proof.
  intros H. unfold field. rewrite lookup_actionWith, H. reflexivity.
Qed.

(** Unless the promise of [callFbog] rejects with [undefined] or [null], a
    call with a valid descriptor forwards the request action before the
    fetch, one success or failure action after it, and the returned promise
    is fulfilled with what [next] returned for that action. *)
Theorem two_actions_unless_nullish (E : env) (ps d : props) :
  lookup CALL_FBOG ps = Some (VObj d) ->
  valid_descriptor E d = true ->
  (forall e,
      snd (callFbog_settle E (field (KStr "schema") d)
             (fBfetch E (resolved E (field (KStr "endpoint") d)))) = Rejected e ->
      nullish e = false) ->
  exists request terminal,
    run E (VObj ps) =
    (resolving E (field (KStr "endpoint") d)
       ++ [ENext request; EFetch (resolved E (field (KStr "endpoint") d))],
     [ENext terminal], Settled (Fulfilled (next E terminal))) /\
    field (KStr "type") (own_props request) = requestType d /\
    (field (KStr "type") (own_props terminal) = successType d \/
     field (KStr "type") (own_props terminal) = failureType d).
Proof.
  intros H Hv Hn. rewrite (run_valid E ps d H Hv), on_settle_eq.
  cbn [p_schema pending_of].
  destruct (reactions_cases E (pending_of E (VObj ps) d)
              (snd (callFbog_settle E (field (KStr "schema") d)
                      (fBfetch E (resolved E (field (KStr "endpoint") d))))))
    as [(r & b & _ & Hb & ->)|[(e & m & b & _ & _ & Hb & ->)|(e & He & Hx & _)]].
  - eexists _, b. split; [reflexivity|].
    split; [apply type_of_actionWith; reflexivity|].
    left. subst b. apply type_of_actionWith. reflexivity.
  - eexists _, b. split; [reflexivity|].
    split; [apply type_of_actionWith; reflexivity|].
    right. subst b. apply type_of_actionWith. reflexivity.
  - apply Hn in He. destruct Hx as [-> | ->]; discriminate.
Qed.

(** C1: when the fetch of a valid call is rejected with [undefined] or
    [null], the request action is the only action forwarded: no failure
    action follows it, so the call forwards one action, not two. *)
Theorem request_only_when_rejection_is_nullish (E : env) (ps d : props) (e : value) :
  lookup CALL_FBOG ps = Some (VObj d) ->
  valid_descriptor E d = true ->
  fBfetch E (resolved E (field (KStr "endpoint") d)) = Rejected e ->
  nullish e = true ->
  exists l l' o,
    run E (VObj ps) = (l, l', o) /\
    forwarded (l ++ l') = [actionWith (VObj ps) [(KStr "type", requestType d)]].
Proof.
  intros H Hv Hf He. rewrite (run_valid E ps d H Hv), on_settle_eq, Hf.
  destruct (resolving_quiet E (field (KStr "endpoint") d)) as [Hq _].
  eexists _, _, _. split; [reflexivity|].
  rewrite !forwarded_app, Hq.
  destruct e; try discriminate; reflexivity.
Qed.

Lemma request_only_when_rejection_is_nullish_witness :
  exists l l' o,
    run (sample_env (Rejected VUndefined)) page_call = (l, l', o) /\
    forwarded (l ++ l') =
    [VObj [(KStr "type", VStr "PAGE_REQUEST"); (KStr "login", VStr "acao")]].
Proof.
  apply (request_only_when_rejection_is_nullish (sample_env (Rejected VUndefined))
           (own_props page_call)
           (own_props (sample_descriptor (VStr "/me") Schemas.PAGE sample_types))
           VUndefined); reflexivity.
Defined.

(** C3: for an envelope whose [ok] flag is false and whose [data] is [null]
    or [undefined] no message is available, and no failure action carrying
    the placeholder is forwarded: after the fetch has settled nothing is
    forwarded at all, and the returned promise rejects. *)
Theorem no_failure_action_for_nullish_data (E : env) (ps d : props)
    (response ok data : value) :
  lookup CALL_FBOG ps = Some (VObj d) ->
  valid_descriptor E d = true ->
  fBfetch E (resolved E (field (KStr "endpoint") d)) = Fulfilled response ->
  get_prop response (KStr "data") = Return data ->
  get_prop response (KStr "ok") = Return ok ->
  truthy ok = false ->
  nullish data = true ->
  exists l, run E (VObj ps) = (l, [], Settled (Rejected TypeError)).
Proof.
  intros H Hv Hf Hd Ho Ht Hn. rewrite (run_valid E ps d H Hv), on_settle_eq, Hf.
  unfold callFbog_settle, callFbog_then. rewrite Hd, Ho.
  cbn [lift bind app]. rewrite Ht.
  eexists. destruct data; try discriminate; reflexivity.
Qed.

Lemma no_failure_action_for_nullish_data_witness :
  exists l,
    run (sample_env (Fulfilled (envelope (VBool false) VNull))) page_call =
    (l, [], Settled (Rejected TypeError)).
Proof.
  apply (no_failure_action_for_nullish_data
           (sample_env (Fulfilled (envelope (VBool false) VNull)))
           (own_props page_call)
           (own_props (sample_descriptor (VStr "/me") Schemas.PAGE sample_types))
           (envelope (VBool false) VNull) (VBool false) VNull); reflexivity.
Defined.

(** C4: whenever the fetch of a valid call is rejected with [undefined] or
    [null], the promise returned by the middleware is rejected (with the
    [TypeError] of reading [error.message]) and nothing is forwarded after
    the request action. *)
Theorem handle_rejects_on_nullish_rejection (E : env) (ps d : props) (e : value) :
  lookup CALL_FBOG ps = Some (VObj d) ->
  valid_descriptor E d = true ->
  fBfetch E (resolved E (field (KStr "endpoint") d)) = Rejected e ->
  nullish e = true ->
  exists l, run E (VObj ps) = (l, [], Settled (Rejected TypeError)).
Proof.
  intros H Hv Hf He. rewrite (run_valid E ps d H Hv), on_settle_eq, Hf.
  eexists. destruct e; try discriminate; reflexivity.
Qed.

Lemma handle_rejects_on_nullish_rejection_witness :
  exists l,
    run (sample_env (Rejected VNull))
      (sample_action (sample_descriptor (VFun 0) Schemas.EVENT sample_types)) =
    (l, [], Settled (Rejected TypeError)).
Proof.
  apply (handle_rejects_on_nullish_rejection (sample_env (Rejected VNull))
           (own_props (sample_action
              (sample_descriptor (VFun 0) Schemas.EVENT sample_types)))
           (own_props (sample_descriptor (VFun 0) Schemas.EVENT sample_types))
           VNull); reflexivity.
Defined.

(** ** Normalization against the page schema *)

Lemma has_key_false (k : key) (ps : props) :
  has_key k ps = false -> ~ In k (map fst ps).
Proof.
  unfold has_key. induction ps as [|[k' v] ps IH]; simpl; [tauto|].
  intros H. apply orb_false_elim in H as [Hk Hps].
  intros [<-|Hin]; [rewrite key_eqb_refl in Hk; discriminate|].
  exact (IH Hps Hin).
Qed.

Lemma not_in_has_key (k : key) (ps : props) :
  ~ In k (map fst ps) -> has_key k ps = false.
Proof.
  unfold has_key. induction ps as [|[k' v] ps IH]; simpl; [reflexivity|].
  intros H. destruct (key_eqb_spec k k') as [->|Hne]; [tauto|].
  apply IH. tauto.
Qed.

Lemma keys_overwrite (k : key) (v : value) (ps : props) :
  map fst (map (fun p => if key_eqb k (fst p) then (fst p, v) else p) ps)
  = map fst ps.
Proof.
  induction ps as [|[k' w] ps IH]; simpl; [reflexivity|].
  rewrite IH. destruct (key_eqb k k'); reflexivity.
Qed.

Lemma nodup_set (k : key) (v : value) (ps : props) :
  NoDup (map fst ps) -> NoDup (map fst (set k v ps)).
Proof.
  intros H. unfold set. destruct (has_key k ps) eqn:Hk.
  - rewrite keys_overwrite. exact H.
  - rewrite map_app. simpl. apply has_key_false in Hk.
    apply NoDup_app; [exact H|repeat constructor; simpl; tauto|].
    intros x Hx [<-|[]]. contradiction.
Qed.

Lemma nodup_assign (target source : props) :
  NoDup (map fst target) -> NoDup (map fst (assign target source)).
Proof.
  unfold assign. revert target.
  induction source as [|[k v] source IH]; intros target H; simpl; [exact H|].
  apply IH, nodup_set, H.
Qed.

(** Merging into a record a record none of whose keys it has adds all of it. *)
Lemma merge_fresh (stored normalized : props) :
  NoDup (map fst (stored ++ normalized)) ->
  Normalizr.mergeIntoEntity stored normalized = stored ++ normalized.
Proof.
  unfold Normalizr.mergeIntoEntity. revert stored.
  induction normalized as [|[k v] n IH]; intros stored H; simpl.
  - rewrite app_nil_r. reflexivity.
  - assert (Hk : has_key k stored = false).
    { apply not_in_has_key. rewrite map_app in H. simpl in H.
      apply NoDup_remove_2 in H. intros Hin. apply H, in_or_app. tauto. }
    rewrite Hk. unfold set. rewrite Hk.
    change (stored ++ (k, v) :: n) with (stored ++ [(k, v)] ++ n).
    rewrite app_assoc. apply IH. rewrite <- app_assoc. exact H.
Qed.

Lemma lookup_string_keyed (k : string) (ps : props) :
  lookup (KStr k) (map kv (string_keyed ps)) = lookup (KStr k) ps.
Proof.
  induction ps as [|[[s|n] v] ps IH]; simpl; [reflexivity| |].
  - rewrite IH. reflexivity.
  - rewrite IH. destruct (lookup (KStr k) ps); reflexivity.
Qed.

Lemma nodup_string_keyed (ps : props) :
  NoDup (map fst ps) -> NoDup (map fst (string_keyed ps)).
Proof.
  induction ps as [|[[s|n] v] ps IH]; simpl; intros H.
  - constructor.
  - inversion H as [|? ? Hn Hd]; subst. constructor; [|exact (IH Hd)].
    intros Hin. apply Hn. clear -Hin.
    induction ps as [|[[s'|n'] w] ps IH]; simpl in *; [tauto| |auto].
    destruct Hin as [->|Hin]; auto.
  - inversion H; subst. auto.
Qed.


Lemma lookup_in (k : key) (v : value) (ps : props) :
  lookup k ps = Some v -> In (k, v) ps.
Proof.
  induction ps as [|[k' w] ps IH]; simpl; [discriminate|].
  destruct (lookup k ps) as [u|].
  - intros H. right. apply IH. exact H.
  - destruct (key_eqb_spec k k') as [->|]; [|discriminate].
    intros [= ->]. left. reflexivity.
Qed.

(** Without nested schemas [visitObject] copies the entries and leaves the
    bag alone. *)
Lemma visitObject_plain (obj : value) (bag : props) :
  Normalizr.visitObject (fun _ => None) obj bag =
  (assign [] (map kv (enumerate obj)), bag).
Proof.
  unfold Normalizr.visitObject, assign.
  generalize (@nil (key * value)) as n.
  induction (enumerate obj) as [|[k v] es IH]; intros n; simpl; [reflexivity|].
  apply IH.
Qed.

Lemma visit_own_nodup (nested : string -> option Normalizr.visitor)
    (es : list (string * value)) (st : props * props) :
  NoDup (map fst (fst st)) ->
  NoDup (map fst (fst (fold_left (Normalizr.visit_own nested) es st))).
Proof.
  revert st. induction es as [|[k v] es IH]; intros [n bag] H; simpl; [exact H|].
  apply IH. unfold Normalizr.visit_own. cbn [fst snd].
  destruct (Normalizr.visit_field nested k v bag). cbn [fst].
  apply nodup_set, H.
Qed.

(** An entity met for the first time, whose fields do not touch the table
    of its own kind: its record is the visited object. *)
Lemma visitEntity_fresh (entityKey idAttribute : string)
    (nested : string -> option Normalizr.visitor) (obj : value)
    (bag normalized bag3 : props) :
  let id := match get_prop obj (KStr idAttribute) with
            | Return v => v
            | Throw _ => VUndefined
            end in
  let idk := KStr (Normalizr.to_key id) in
  let bag2 := set (KStr entityKey) (VObj [(idk, VObj [])])
                (set (KStr entityKey) (VObj []) bag) in
  lookup (KStr entityKey) bag = None ->
  Normalizr.visitObject nested obj bag2 = (normalized, bag3) ->
  lookup (KStr entityKey) bag3 = lookup (KStr entityKey) bag2 ->
  Normalizr.visitEntity entityKey idAttribute nested obj bag =
  (id, set (KStr entityKey) (VObj [(idk, VObj normalized)]) bag3).
Proof.
  intros id idk bag2 Hb Hv Ht.
  assert (Hn : NoDup (map fst normalized)).
  { change normalized with (fst (normalized, bag3)). rewrite <- Hv.
    apply visit_own_nodup. constructor. }
  unfold Normalizr.visitEntity. fold id. fold idk.
  rewrite (has_key_lookup (KStr entityKey) bag), Hb.
  assert (H1 : Normalizr.table entityKey (set (KStr entityKey) (VObj []) bag) = []).
  { unfold Normalizr.table. rewrite lookup_set, key_eqb_refl. reflexivity. }
  rewrite H1. cbn [has_key existsb]. unfold set at 2. cbn [has_key existsb app].
  fold bag2. rewrite Hv.
  assert (H3 : Normalizr.table entityKey bag3 = [(idk, VObj [])]).
  { unfold Normalizr.table. rewrite Ht. unfold bag2.
    rewrite lookup_set, key_eqb_refl. reflexivity. }
  rewrite H3. cbn [lookup]. rewrite key_eqb_refl. cbn [own_props].
  rewrite (merge_fresh [] normalized Hn). cbn [app].
  unfold set at 2. cbn [has_key existsb fst map]. rewrite key_eqb_refl.
  reflexivity.
Qed.

Lemma visit_event_eq (v : value) (bag : props) :
  Normalizr.visit eventSchema v bag =
  if is_object v
  then Normalizr.visitEntity "events" "id" (fun _ => None) v bag
  else (v, bag).
Proof. destruct v; reflexivity. Qed.

Lemma fst_visitEntity (entityKey idAttribute : string)
    (nested : string -> option Normalizr.visitor) (obj : value) (bag : props) :
  fst (Normalizr.visitEntity entityKey idAttribute nested obj bag) =
  match get_prop obj (KStr idAttribute) with
  | Return v => v
  | Throw _ => VUndefined
  end.
Proof.
  unfold Normalizr.visitEntity.
  destruct (Normalizr.visitObject _ _ _). reflexivity.
Qed.

(** The value the page record gets for a field does not depend on the bag. *)
Lemma visit_field_page_value (k : string) (v : value) (bag : props) :
  fst (Normalizr.visit_field page_fields k v bag) = page_replace k v.
Proof.
  unfold Normalizr.visit_field, page_fields, page_replace.
  destruct (String.eqb k "events"); [|reflexivity].
  rewrite visit_event_eq. cbn [andb].
  destruct (is_object v); [apply fst_visitEntity|reflexivity].
Qed.

(** A field other than [events] leaves the bag as it is. *)
Lemma visit_field_page_other (k : string) (v : value) (bag : props) :
  k <> "events" -> Normalizr.visit_field page_fields k v bag = (v, bag).
Proof.
  intros H. unfold Normalizr.visit_field, page_fields.
  destruct (String.eqb_spec k "events"); [contradiction|reflexivity].
Qed.

(** Visiting an event only writes the [events] table of the bag. *)
Lemma visit_event_preserves (k : string) (v : value) (bag : props) :
  k <> "events" ->
  lookup (KStr k) (snd (Normalizr.visit eventSchema v bag)) = lookup (KStr k) bag.
Proof.
  intros H. rewrite visit_event_eq.
  destruct (is_object v); [|reflexivity].
  assert (Hk : key_eqb (KStr "events") (KStr k) = false).
  { destruct (key_eqb_spec (KStr "events") (KStr k)); congruence. }
  unfold Normalizr.visitEntity. rewrite visitObject_plain. cbn [snd].
  rewrite lookup_set, Hk.
  destruct (has_key (KStr "events") bag);
    match goal with |- context [if ?c then _ else _] => destruct c end;
    rewrite ?lookup_set, ?Hk; reflexivity.
Qed.

Lemma page_fold_normalized (es : list (string * value)) (n bag : props)
    (k : string) :
  lookup (KStr k) (fst (fold_left (Normalizr.visit_own page_fields) es (n, bag))) =
  match lookup (KStr k) (map kv es) with
  | Some v => Some (page_replace k v)
  | None => lookup (KStr k) n
  end.
Proof.
  revert n bag. induction es as [|[k1 v1] es IH]; intros n bag; [reflexivity|].
  cbn [fold_left map kv fst snd lookup].
  unfold Normalizr.visit_own at 2. cbn [fst snd].
  pose proof (visit_field_page_value k1 v1 bag) as Hv.
  destruct (Normalizr.visit_field page_fields k1 v1 bag) as [entity bag'].
  cbn [fst] in Hv. subst entity.
  rewrite IH. destruct (lookup (KStr k) (map kv es)); [reflexivity|].
  rewrite lookup_set. cbn [key_eqb].
  destruct (String.eqb_spec k k1) as [->|Hne].
  - rewrite String.eqb_refl. reflexivity.
  - destruct (String.eqb_spec k1 k); [congruence|reflexivity].
Qed.

Lemma page_fold_preserves (es : list (string * value)) (n bag : props)
    (k : string) :
  k <> "events" ->
  lookup (KStr k) (snd (fold_left (Normalizr.visit_own page_fields) es (n, bag))) =
  lookup (KStr k) bag.
Proof.
  intros H. revert n bag.
  induction es as [|[k1 v1] es IH]; intros n bag; [reflexivity|].
  cbn [fold_left]. unfold Normalizr.visit_own at 2. cbn [fst snd].
  destruct (String.eqb_spec k1 "events") as [->|Hne].
  - unfold Normalizr.visit_field, page_fields. cbn [String.eqb Ascii.eqb Bool.eqb].
    pose proof (visit_event_preserves k v1 bag H) as Hp.
    destruct (Normalizr.visit eventSchema v1 bag) as [entity bag'].
    rewrite IH. exact Hp.
  - rewrite (visit_field_page_other k1 v1 bag Hne). apply IH.
Qed.

Lemma page_fold_skip (es : list (string * value)) (st : props * props) :
  ~ In "events" (map fst es) ->
  snd (fold_left (Normalizr.visit_own page_fields) es st) = snd st.
Proof.
  revert st. induction es as [|[k1 v1] es IH]; intros [n bag] H; [reflexivity|].
  cbn [fold_left]. unfold Normalizr.visit_own at 2. cbn [fst snd].
  simpl in H. rewrite visit_field_page_other by tauto.
  rewrite IH by tauto. reflexivity.
Qed.

(** With each key met once, the bag after a page's fields is the bag after
    its [events] field. *)
Lemma page_fold_bag (es : list (string * value)) (n bag : props) (v : value) :
  NoDup (map fst es) ->
  In ("events", v) es ->
  snd (fold_left (Normalizr.visit_own page_fields) es (n, bag)) =
  snd (Normalizr.visit eventSchema v bag).
Proof.
  intros Hn Hin. apply in_split in Hin as (es1 & es2 & ->).
  rewrite map_app in Hn. cbn [map fst] in Hn.
  pose proof (NoDup_remove_2 _ _ _ Hn) as Hnot.
  rewrite fold_left_app. cbn [fold_left].
  rewrite page_fold_skip
    by (intros Hx; apply Hnot, in_or_app; right; exact Hx).
  pose proof (page_fold_skip es1 (n, bag)) as H1.
  destruct (fold_left (Normalizr.visit_own page_fields) es1 (n, bag)) as [n1 bag1].
  cbn [snd] in H1. rewrite H1
    by (intros Hx; apply Hnot, in_or_app; left; exact Hx).
  unfold Normalizr.visit_own. cbn [fst snd].
  unfold Normalizr.visit_field, page_fields. cbn [String.eqb Ascii.eqb Bool.eqb].
  destruct (Normalizr.visit eventSchema v bag). reflexivity.
Qed.

Lemma enumerate_nodup (ps : props) :
  NoDup (map fst (enumerate (VObj ps))).
Proof.
  apply nodup_string_keyed, nodup_assign. constructor.
Qed.

Lemma lookup_enumerate (k : string) (ps : props) :
  lookup (KStr k) (map kv (enumerate (VObj ps))) = lookup (KStr k) ps.
Proof.
  cbn [enumerate]. rewrite lookup_string_keyed, lookup_assign.
  destruct (lookup (KStr k) ps); reflexivity.
Qed.

Lemma in_enumerate (k : string) (v : value) (ps : props) :
  lookup (KStr k) ps = Some v -> In (k, v) (enumerate (VObj ps)).
Proof.
  intros H. rewrite <- lookup_enumerate in H. apply lookup_in in H.
  apply in_map_iff in H as ([k' v'] & Heq & Hin).
  unfold kv in Heq. cbn [fst snd] in Heq. injection Heq as -> ->. exact Hin.
Qed.

Lemma visit_event_fresh (eps bag : props) :
  lookup (KStr "events") bag = None ->
  Normalizr.visit eventSchema (VObj eps) bag =
  (field (KStr "id") eps,
   set (KStr "events")
     (VObj [(KStr (Normalizr.to_key (field (KStr "id") eps)),
             VObj (assign [] (map kv (enumerate (VObj eps)))))])
     (set (KStr "events")
        (VObj [(KStr (Normalizr.to_key (field (KStr "id") eps)), VObj [])])
        (set (KStr "events") (VObj []) bag))).
Proof.
  intros H. rewrite visit_event_eq. cbn [is_object].
  apply (visitEntity_fresh "events" "id" (fun _ => None) (VObj eps) bag);
    [exact H|apply visitObject_plain|reflexivity].
Qed.

(** What [normalize] returns for an object and the page schema. *)
Lemma normalize_page (cps : props) :
  exists bag record,
    Normalizr.normalize (VObj cps) Schemas.PAGE =
    Return (VObj [(KStr "entities", VObj bag);
                  (KStr "result", field (KStr "id") cps)]) /\
    lookup (KStr "pages") bag =
    Some (VObj [(KStr (Normalizr.to_key (field (KStr "id") cps)), VObj record)]) /\
    (forall k, lookup (KStr k) record =
               option_map (page_replace k) (lookup (KStr k) cps)) /\
    (forall eps,
        lookup (KStr "events") cps = Some (VObj eps) ->
        exists erec,
          lookup (KStr "events") bag =
          Some (VObj [(KStr (Normalizr.to_key (field (KStr "id") eps)), VObj erec)]) /\
          forall k, lookup (KStr k) erec = lookup (KStr k) eps).
Proof.
  set (idk := KStr (Normalizr.to_key (field (KStr "id") cps))).
  set (bag2 := set (KStr "pages") (VObj [(idk, VObj [])])
                 (set (KStr "pages") (VObj []) [])).
  destruct (Normalizr.visitObject page_fields (VObj cps) bag2)
    as [n bag3] eqn:Hv.
  assert (Hn : n = fst (fold_left (Normalizr.visit_own page_fields)
                          (enumerate (VObj cps)) ([], bag2)))
    by (unfold Normalizr.visitObject in Hv; rewrite Hv; reflexivity).
  assert (Hb : bag3 = snd (fold_left (Normalizr.visit_own page_fields)
                             (enumerate (VObj cps)) ([], bag2)))
    by (unfold Normalizr.visitObject in Hv; rewrite Hv; reflexivity).
  assert (Hp : lookup (KStr "pages") bag3 = lookup (KStr "pages") bag2)
    by (rewrite Hb; apply page_fold_preserves; discriminate).
  pose proof (visitEntity_fresh "pages" "id" page_fields (VObj cps) [] n bag3
                eq_refl Hv Hp) as He.
  cbn [get_prop] in He. fold idk in He.
  exists (set (KStr "pages") (VObj [(idk, VObj n)]) bag3), n.
  split; [|split; [|split]].
  - unfold Normalizr.normalize. cbn [is_object negb Schemas.PAGE Normalizr.schema_of].
    change (Normalizr.visit pageSchema (VObj cps) [])
      with (Normalizr.visitEntity "pages" "id" page_fields (VObj cps) []).
    rewrite He. reflexivity.
  - rewrite lookup_set, key_eqb_refl. reflexivity.
  - intros k. rewrite Hn, page_fold_normalized, lookup_enumerate.
    destruct (lookup (KStr k) cps); reflexivity.
  - intros eps Hev. eexists. split.
    + rewrite lookup_set. cbn [key_eqb String.eqb Ascii.eqb Bool.eqb].
      assert (Hb' : bag3 = snd (Normalizr.visit eventSchema (VObj eps) bag2)).
      { rewrite Hb. apply page_fold_bag;
          [apply enumerate_nodup|apply in_enumerate, Hev]. }
      rewrite Hb', visit_event_fresh by reflexivity.
      cbn [snd]. rewrite lookup_set, key_eqb_refl. reflexivity.
    + intros k. rewrite lookup_assign, lookup_enumerate.
      destruct (lookup (KStr k) eps); reflexivity.
Qed.

(** C2, as amended: for a successful envelope whose camelized data is an
    object, normalized against the page schema, the success action carries
    a response whose [result] is the top-level [id] and whose
    [entities.pages] (not [page]) holds the page record under the text of
    that id, whether or not the object has an [id]; the record keeps every
    field but [events]; a nested [events] object is stored as one record of
    [entities.events] (not [event]) under the text of its own [id], with its
    fields, and the page record holds that id in its place. *)
Theorem page_response_shape (E : env) (ps d : props)
    (response ok data : value) (cps : props) :
  lookup CALL_FBOG ps = Some (VObj d) ->
  valid_descriptor E d = true ->
  field (KStr "schema") d = Schemas.PAGE ->
  fBfetch E (resolved E (field (KStr "endpoint") d)) = Fulfilled response ->
  get_prop response (KStr "data") = Return data ->
  get_prop response (KStr "ok") = Return ok ->
  truthy ok = true ->
  camelizeKeys E data = Return (VObj cps) ->
  (forall v sch, normalize E v sch = Normalizr.normalize v sch) ->
  exists l a resp record,
    run E (VObj ps) = (l, [ENext a], Settled (Fulfilled (next E a))) /\
    field (KStr "type") (own_props a) = successType d /\
    lookup (KStr "response") (own_props a) = Some resp /\
    field (KStr "result") (own_props resp) = field (KStr "id") cps /\
    entity "pages" (field (KStr "id") cps) resp = Some (VObj record) /\
    (forall k, k <> "events" -> lookup (KStr k) record = lookup (KStr k) cps) /\
    (forall eps,
        lookup (KStr "events") cps = Some (VObj eps) ->
        lookup (KStr "events") record = Some (field (KStr "id") eps) /\
        exists erec,
          entity "events" (field (KStr "id") eps) resp = Some (VObj erec) /\
          forall k, lookup (KStr k) erec = lookup (KStr k) eps).
Proof.
  intros H Hv Hs Hf Hd Ho Ht Hc Hn.
  destruct (normalize_page cps) as (bag & record & Hnorm & Hpages & Hrec & Hev).
  set (resp := VObj [(KStr "entities", VObj bag);
                     (KStr "result", field (KStr "id") cps)]).
  assert (Hsettle : callFbog_settle E (field (KStr "schema") d) (Fulfilled response)
                    = ([], Fulfilled resp)).
  { unfold callFbog_settle, callFbog_then.
    rewrite Hd, Ho. cbn [lift bind app]. rewrite Ht. cbn [negb].
    rewrite Hc. cbn [lift bind app]. rewrite Hn, Hs, Hnorm. reflexivity. }
  rewrite (run_valid E ps d H Hv), on_settle_eq, Hf.
  cbn [p_schema pending_of]. rewrite Hsettle.
  cbn [snd reactions settle_with do_next emit ret bind app fst
       p_action p_successType pending_of].
  eexists _, _, resp, record. split; [reflexivity|].
  split; [apply type_of_actionWith; reflexivity|].
  split; [rewrite lookup_actionWith; reflexivity|].
  split; [reflexivity|].
  split.
  { unfold entity, entity_table, resp. cbn [own_props field lookup key_eqb
      String.eqb Ascii.eqb Bool.eqb]. rewrite Hpages. cbn [own_props lookup].
    rewrite key_eqb_refl. reflexivity. }
  split.
  { intros k Hk. rewrite Hrec. unfold page_replace.
    destruct (String.eqb_spec k "events"); [contradiction|].
    destruct (lookup (KStr k) cps); reflexivity. }
  intros eps Heps. split.
  { rewrite Hrec, Heps. reflexivity. }
  destruct (Hev eps Heps) as (erec & Hevents & Hfields).
  exists erec. split; [|exact Hfields].
  unfold entity, entity_table, resp. cbn [own_props field lookup key_eqb
    String.eqb Ascii.eqb Bool.eqb]. rewrite Hevents. cbn [own_props lookup].
  rewrite key_eqb_refl. reflexivity.
Qed.

Lemma page_response_shape_witness :
  exists l a resp record,
    run (sample_env
           (Fulfilled (envelope (VBool true)
              (VObj [(KStr "id", VStr "1"); (KStr "start_time", VStr "noon");
                     (KStr "events", VObj [(KStr "id", VStr "10")])]))))
        page_call =
    (l, [ENext a], Settled (Fulfilled VUndefined)) /\
    field (KStr "type") (own_props a) = VStr "PAGE_SUCCESS" /\
    lookup (KStr "response") (own_props a) = Some resp /\
    field (KStr "result") (own_props resp) = VStr "1" /\
    entity "pages" (VStr "1") resp = Some (VObj record) /\
    lookup (KStr "startTime") record = Some (VStr "noon") /\
    lookup (KStr "events") record = Some (VStr "10") /\
    exists erec, entity "events" (VStr "10") resp = Some (VObj erec).
Proof.
  destruct (page_response_shape
              (sample_env
                 (Fulfilled (envelope (VBool true)
                    (VObj [(KStr "id", VStr "1"); (KStr "start_time", VStr "noon");
                           (KStr "events", VObj [(KStr "id", VStr "10")])]))))
              (own_props page_call)
              (own_props (sample_descriptor (VStr "/me") Schemas.PAGE sample_types))
              (envelope (VBool true)
                 (VObj [(KStr "id", VStr "1"); (KStr "start_time", VStr "noon");
                        (KStr "events", VObj [(KStr "id", VStr "10")])]))
              (VBool true)
              (VObj [(KStr "id", VStr "1"); (KStr "start_time", VStr "noon");
                     (KStr "events", VObj [(KStr "id", VStr "10")])])
              [(KStr "id", VStr "1"); (KStr "startTime", VStr "noon");
               (KStr "events", VObj [(KStr "id", VStr "10")])]
              eq_refl eq_refl eq_refl eq_refl eq_refl eq_refl eq_refl eq_refl
              (fun _ _ => eq_refl))
    as (l & a & resp & record & Hr & Ht & Hresp & Hres & Hp & Hk & He).
  exists l, a, resp, record.
  split; [exact Hr|]. split; [exact Ht|]. split; [exact Hresp|].
  split; [exact Hres|]. split; [exact Hp|].
  split; [apply (Hk "startTime"); discriminate|].
  destruct (He [(KStr "id", VStr "10")] eq_refl) as (Hevents & erec & Herec & _).
  split; [exact Hevents|]. exists erec. exact Herec.
Defined.

(** C2, as stated, fails.  For the page [{id: "1", events: [{id: "10"},
    {id: "11"}]}] the response has no [page] table, and even read with the
    tables [pages] and [events] the list of events is not replaced by the
    list of their ids (the page record holds [undefined] there); for a page
    without [id] the [pages] table is there all the same. *)
Lemma page_response_counterexample :
  exists r0 r1,
    success_responses
      (sample_env (Fulfilled (envelope (VBool true) page_with_events)))
      page_call = [r0] /\
    ~ flattened_as_specified "page" "event" page_with_events r0 /\
    ~ flattened_as_specified "pages" "events" page_with_events r0 /\
    success_responses
      (sample_env (Fulfilled (envelope (VBool true) page_without_id)))
      page_call = [r1] /\
    ~ flattened_as_specified "pages" "events" page_without_id r1.
Proof.
  eexists _, _. split; [vm_compute; reflexivity|].
  split; [|split; [|split; [vm_compute; reflexivity|]]].
  - intros [[_ Hid] _].
    destruct Hid as [t Ht]; [exists (VStr "1"); reflexivity|].
    vm_compute in Ht. discriminate.
  - intros [_ Hev].
    destruct (Hev _ eq_refl) as [(record & Hrec & Hids) _].
    vm_compute in Hrec. injection Hrec as <-.
    vm_compute in Hids. discriminate.
  - intros [[Hid _] _].
    destruct Hid as [i Hi]; [eexists; vm_compute; reflexivity|].
    vm_compute in Hi. discriminate.
Qed.

(** ** The error of a failure action *)

(** When the promise of [callFbog] rejects with a value that has
    properties, the failure action carries its [message], or the
    placeholder when that message is falsy. *)
Theorem failure_action_error (E : env) (ps d : props) (error message : value) :
  lookup CALL_FBOG ps = Some (VObj d) ->
  valid_descriptor E d = true ->
  snd (callFbog_settle E (field (KStr "schema") d)
         (fBfetch E (resolved E (field (KStr "endpoint") d)))) = Rejected error ->
  get_prop error (KStr "message") = Return message ->
  exists l a,
    run E (VObj ps) = (l, [ENext a], Settled (Fulfilled (next E a))) /\
    field (KStr "type") (own_props a) = failureType d /\
    field (KStr "error") (own_props a) =
    if truthy message then message else VStr placeholder.
Proof.
  intros H Hv Hs Hm. rewrite (run_valid E ps d H Hv), on_settle_eq.
  cbn [p_schema pending_of]. rewrite Hs.
  unfold reactions, error_text. rewrite Hm.
  cbn [lift bind app settle_with do_next emit ret fst snd
       p_action p_failureType pending_of].
  eexists _, _. split; [reflexivity|].
  split; [apply type_of_actionWith; reflexivity|].
  unfold field. rewrite lookup_actionWith. reflexivity.
Qed.

Example failure_with_message :
  forwarded (snd (fst (run
    (sample_env (Fulfilled (envelope (VBool false)
                              (VObj [(KStr "message", VStr "boom")]))))
    page_call))) =
  [VObj [(KStr "type", VStr "PAGE_FAILURE"); (KStr "login", VStr "acao");
         (KStr "error", VStr "boom")]].
Proof. reflexivity. Qed.

Example failure_without_message :
  forwarded (snd (fst (run (sample_env (Rejected (VObj []))) page_call))) =
  [VObj [(KStr "type", VStr "PAGE_FAILURE"); (KStr "login", VStr "acao");
         (KStr "error", VStr placeholder)]].
Proof. reflexivity. Qed.

(** * Further properties *)

(** ** Which runs there are *)

Lemma passthrough_undefined_descriptor_shape (E : env) (ps : props) :
  lookup CALL_FBOG ps = Some VUndefined ->
  run E (VObj ps) = ([ENext (VObj ps)], [], Returned (next E (VObj ps))).
Proof.
  intros H. unfold run, middleware.
  cbn [get_prop lift bind app]. rewrite (field_lookup _ _ _ H). reflexivity.
Qed.

(** The four ways a dispatch can go: a throw before anything is done, a
    pass-through, a configuration error after the endpoint was resolved, or
    a call. *)
Lemma run_shapes (E : env) (action : value) :
  (exists e, run E action = ([], [], Thrown e))
  \/ run E action = ([ENext action], [], Returned (next E action))
  \/ (exists ps d e,
        action = VObj ps /\ lookup CALL_FBOG ps = Some (VObj d) /\
        valid_descriptor E d = false /\
        run E action = (resolving E (field (KStr "endpoint") d), [], Thrown e))
  \/ (exists ps d,
        action = VObj ps /\ lookup CALL_FBOG ps = Some (VObj d) /\
        valid_descriptor E d = true).
Proof.
  destruct action as [| | | | | | | | |ps];
    try (left; eexists; reflexivity); try (right; left; reflexivity).
  destruct (lookup CALL_FBOG ps) as [dv|] eqn:H.
  - assert (Hd : dv = VUndefined \/ (exists d, dv = VObj d) \/
                 (dv <> VUndefined /\ forall fs, dv <> VObj fs)).
    { destruct dv; auto; try (right; right; split; discriminate).
      right; left. eexists. reflexivity. }
    destruct Hd as [->|[[d ->]|[Hu Hn]]].
    + right; left. apply passthrough_undefined_descriptor_shape, H.
    + destruct (valid_descriptor E d) eqn:Hv.
      * right; right; right. exists ps, d. auto.
      * right; right; left. destruct (run_invalid E ps d H Hv) as [e He].
        exists ps, d, e. auto.
    + left. destruct (middleware_not_object E ps dv H Hu Hn) as [Hm|Hm];
        eexists; apply run_throw, Hm.
  - right; left. unfold run, middleware.
    cbn [get_prop lift bind app]. unfold field. rewrite H. reflexivity.
Qed.

Lemma resolving_calls (E : env) (endpoint : value) :
  (List.length (endpoint_calls (resolving E endpoint)) <= 1)%nat.
Proof. destruct endpoint; simpl; lia. Qed.

(** Whatever is dispatched, valid or not, one dispatch starts at most one
    fetch, forwards at most two actions, calls an endpoint function at most
    once, and fetches nothing after the first fetch has settled. *)
Theorem one_fetch_per_dispatch (E : env) (action : value) :
  (List.length (fetched (events_of (run E action))) <= 1)%nat /\
  (List.length (forwarded (events_of (run E action))) <= 2)%nat /\
  (List.length (endpoint_calls (events_of (run E action))) <= 1)%nat /\
  fetched (snd (fst (run E action))) = [].
Proof.
  destruct (run_shapes E action)
    as [[e ->]|[->|[(ps & d & e & -> & H & Hv & ->)|(ps & d & -> & H & Hv)]]];
    unfold events_of; cbn [fst snd app forwarded fetched endpoint_calls List.length].
  - repeat split; lia.
  - repeat split; lia.
  - rewrite app_nil_r.
    destruct (resolving_quiet E (field (KStr "endpoint") d)) as [-> ->].
    pose proof (resolving_calls E (field (KStr "endpoint") d)).
    repeat split; simpl; lia.
  - rewrite (run_valid E ps d H Hv). cbn [fst snd].
    destruct (on_settle_events E (pending_of E (VObj ps) d)
                (fBfetch E (resolved E (field (KStr "endpoint") d))))
      as (Hq & Hc & Hn).
    destruct (resolving_quiet E (field (KStr "endpoint") d)) as [Hf Hg].
    pose proof (resolving_calls E (field (KStr "endpoint") d)) as Hr.
    rewrite !fetched_app, !forwarded_app, !endpoint_calls_app, Hq, Hc, Hf, Hg.
    cbn [fetched forwarded endpoint_calls app List.length].
    rewrite !app_nil_r. repeat split; simpl; try lia.
Qed.

(** A descriptor either fails validation, and then the dispatch throws one
    of the four configuration errors with nothing forwarded and nothing
    fetched, or passes it, and then the dispatch returns a promise after
    forwarding the request action and starting the fetch of the resolved
    endpoint, in that order. *)
Theorem throw_or_promise (E : env) (ps d : props) :
  lookup CALL_FBOG ps = Some (VObj d) ->
  (valid_descriptor E d = false /\
   (exists e, snd (run E (VObj ps)) = Thrown e /\ In e configuration_errors) /\
   forwarded (events_of (run E (VObj ps))) = [] /\
   fetched (events_of (run E (VObj ps))) = [])
  \/ (valid_descriptor E d = true /\
      (exists s, snd (run E (VObj ps)) = Settled s) /\
      fst (fst (run E (VObj ps))) =
      resolving E (field (KStr "endpoint") d)
        ++ [ENext (actionWith (VObj ps) [(KStr "type", requestType d)]);
            EFetch (resolved E (field (KStr "endpoint") d))]).
Proof.
  intros H. destruct (valid_descriptor E d) eqn:Hv.
  - right. rewrite (run_valid E ps d H Hv). cbn [fst snd].
    split; [reflexivity|]. split; [eexists; reflexivity|reflexivity].
  - left. split; [reflexivity|].
    pose proof (middleware_descriptor E ps d H) as Hm. cbv zeta in Hm.
    destruct (resolving_quiet E (field (KStr "endpoint") d)) as [Hf Hg].
    unfold valid_descriptor, valid_types in Hv. unfold configuration_errors.
    assert (Hcase : exists e, middleware E (VObj ps) =
                      (resolving E (field (KStr "endpoint") d), Throw e) /\
                    In e [Error msg_endpoint; Error msg_schema;
                          Error msg_three; Error msg_strings]).
    { destruct (is_string _); cbn [negb] in Hm;
        [|eexists; split; [exact Hm|simpl; auto]].
      destruct (truthy _); cbn [negb] in Hm;
        [|eexists; split; [exact Hm|simpl; auto]].
      destruct (not_three _); [eexists; split; [exact Hm|simpl; auto]|].
      destruct (every_string _); [discriminate|].
      eexists; split; [exact Hm|simpl; auto 6]. }
    destruct Hcase as (e & He & Hin).
    rewrite (run_throw _ _ _ _ He). unfold events_of. cbn [fst snd].
    rewrite app_nil_r. split; [exists e; auto|auto].
Qed.

Lemma throw_or_promise_witness :
  (exists e,
      snd (run (sample_env (Rejected VNull))
             (sample_action (sample_descriptor (VStr "/me") (VStr "") sample_types)))
      = Thrown e /\ In e configuration_errors)
  /\ exists s, snd (run (sample_env (Rejected (VObj []))) page_call) = Settled s.
Proof.
  split.
  - destruct (throw_or_promise (sample_env (Rejected VNull))
                (own_props (sample_action
                   (sample_descriptor (VStr "/me") (VStr "") sample_types)))
                (own_props (sample_descriptor (VStr "/me") (VStr "") sample_types))
                eq_refl) as [(_ & He & _)|(Hv & _)];
      [exact He|discriminate Hv].
  - destruct (throw_or_promise (sample_env (Rejected (VObj [])))
                (own_props page_call)
                (own_props (sample_descriptor (VStr "/me") Schemas.PAGE sample_types))
                eq_refl) as [(Hv & _)|(_ & Hs & _)];
      [discriminate Hv|exact Hs].
Defined.

(** ** Descriptors and actions that are no objects *)

(** A descriptor that is [null] makes the middleware throw a [TypeError]
    when its fields are read, and a primitive one (a boolean, a number, a
    string) has no endpoint, so the endpoint error is thrown; either way
    synchronously, with no event at all. *)
Theorem descriptor_without_fields (E : env) (ps : props) (dv : value) :
  lookup CALL_FBOG ps = Some dv ->
  (dv = VNull -> run E (VObj ps) = ([], [], Thrown TypeError)) /\
  (primitive dv = true -> run E (VObj ps) = ([], [], Thrown (Error msg_endpoint))).
Proof.
  intros H. split; intros Hd; apply run_throw; unfold middleware;
    cbn [get_prop lift bind app]; rewrite (field_lookup _ _ _ H).
  - subst dv. reflexivity.
  - destruct dv; try discriminate; reflexivity.
Qed.

Lemma descriptor_without_fields_witness :
  run (sample_env (Rejected VNull)) (sample_action VNull) =
  ([], [], Thrown TypeError)
  /\ run (sample_env (Rejected VNull)) (sample_action (VStr "/me")) =
     ([], [], Thrown (Error msg_endpoint)).
Proof.
  split.
  - apply (descriptor_without_fields (sample_env (Rejected VNull))
             (own_props (sample_action VNull)) VNull eq_refl). reflexivity.
  - apply (descriptor_without_fields (sample_env (Rejected VNull))
             (own_props (sample_action (VStr "/me"))) (VStr "/me") eq_refl).
    reflexivity.
Defined.

(** An action that is [undefined] or [null] makes the middleware throw a
    [TypeError] before [next] is called; a primitive action carries no
    descriptor and is forwarded as it is, the result of [next] being
    returned. *)
Theorem action_without_fields (E : env) (action : value) :
  (nullish action = true -> run E action = ([], [], Thrown TypeError)) /\
  (primitive action = true ->
   run E action = ([ENext action], [], Returned (next E action))).
Proof.
  split; intros H; destruct action; try discriminate; reflexivity.
Qed.

Lemma action_without_fields_witness :
  run (sample_env (Rejected VNull)) VUndefined = ([], [], Thrown TypeError)
  /\ run (sample_env (Rejected VNull)) (VStr "RESET") =
     ([ENext (VStr "RESET")], [], Returned VUndefined).
Proof.
  split.
  - apply (action_without_fields (sample_env (Rejected VNull)) VUndefined).
    reflexivity.
  - apply (action_without_fields (sample_env (Rejected VNull)) (VStr "RESET")).
    reflexivity.
Defined.

(** ** The promise of [callFbog] *)

(** [Object.assign({}, o)] holds what [o] holds. *)
Lemma lookup_copy (k : key) (ps : props) :
  lookup k (assign [] ps) = lookup k ps.
Proof. rewrite lookup_assign. destruct (lookup k ps); reflexivity. Qed.

(** The promise of [callFbog] is fulfilled exactly when the fetch is
    fulfilled with a response that has properties, whose [ok] is truthy,
    and both [camelizeKeys] and [normalize] return; its value is then a
    fresh plain object holding the fields of what [normalize] returned.  In
    every other case it is rejected. *)
Theorem callFbog_fulfilment (E : env) (sch : value) (s : settled) (v : value) :
  snd (callFbog_settle E sch s) = Fulfilled v <->
  exists response data ok cj n,
    s = Fulfilled response /\
    get_prop response (KStr "data") = Return data /\
    get_prop response (KStr "ok") = Return ok /\
    truthy ok = true /\
    camelizeKeys E data = Return cj /\
    normalize E cj sch = Return n /\
    v = VObj (assign [] (own_props n)) /\
    forall k, lookup k (own_props v) = lookup k (own_props n).
Proof.
  split.
  - destruct s as [response|e]; [|discriminate].
    unfold callFbog_settle, callFbog_then.
    destruct (get_prop response (KStr "data")) as [data|] eqn:Hd; [|discriminate].
    destruct (get_prop response (KStr "ok")) as [ok|] eqn:Ho; [|discriminate].
    cbn [lift bind app].
    destruct (truthy ok) eqn:Ht; cbn [negb]; [|discriminate].
    destruct (camelizeKeys E data) as [cj|] eqn:Hc; [|discriminate].
    cbn [lift bind app].
    destruct (normalize E cj sch) as [n|] eqn:Hn; [|discriminate].
    cbn. intros [= <-].
    exists response, data, ok, cj, n. repeat split; try assumption.
    intros k. cbn [own_props]. apply lookup_copy.
  - intros (response & data & ok & cj & n & -> & Hd & Ho & Ht & Hc & Hn & -> & _).
    unfold callFbog_settle, callFbog_then.
    rewrite Hd, Ho. cbn [lift bind app]. rewrite Ht. cbn [negb].
    rewrite Hc. cbn [lift bind app]. rewrite Hn. reflexivity.
Qed.

(** When the envelope is fine but [camelizeKeys] or [normalize] throws an
    error, no success action is forwarded: the thrown error is handled like
    a failed fetch, so the call ends with a failure action carrying the
    message of that error (or the placeholder), and the returned promise is
    fulfilled. *)
Theorem package_error_becomes_failure (E : env) (ps d : props)
    (response data ok e message : value) :
  lookup CALL_FBOG ps = Some (VObj d) ->
  valid_descriptor E d = true ->
  fBfetch E (resolved E (field (KStr "endpoint") d)) = Fulfilled response ->
  get_prop response (KStr "data") = Return data ->
  get_prop response (KStr "ok") = Return ok ->
  truthy ok = true ->
  (camelizeKeys E data = Throw e \/
   exists cj, camelizeKeys E data = Return cj /\
              normalize E cj (field (KStr "schema") d) = Throw e) ->
  get_prop e (KStr "message") = Return message ->
  exists l a,
    run E (VObj ps) = (l, [ENext a], Settled (Fulfilled (next E a))) /\
    a = actionWith (VObj ps)
          [(KStr "type", failureType d);
           (KStr "error", if truthy message then message else VStr placeholder)].
Proof.
  intros H Hv Hf Hd Ho Ht Hthrow Hm.
  assert (Hs : callFbog_settle E (field (KStr "schema") d) (Fulfilled response)
               = ([], Rejected e)).
  { unfold callFbog_settle, callFbog_then.
    rewrite Hd, Ho. cbn [lift bind app]. rewrite Ht. cbn [negb].
    destruct Hthrow as [Hc|(cj & Hc & Hn)]; rewrite Hc; [reflexivity|].
    cbn [lift bind app]. rewrite Hn. reflexivity. }
  rewrite (run_valid E ps d H Hv), on_settle_eq, Hf.
  cbn [p_schema pending_of]. rewrite Hs.
  unfold reactions, error_text. cbn [snd]. rewrite Hm.
  eexists _, _. split; reflexivity.
Qed.

Lemma package_error_becomes_failure_witness :
  exists l a,
    run (sample_env (Fulfilled (envelope (VBool true) (VStr "down")))) page_call =
    (l, [ENext a], Settled (Fulfilled VUndefined)) /\
    a = VObj [(KStr "type", VStr "PAGE_FAILURE"); (KStr "login", VStr "acao");
              (KStr "error",
               VStr "Normalize accepts an object or an array as its input.")].
Proof.
  apply (package_error_becomes_failure
           (sample_env (Fulfilled (envelope (VBool true) (VStr "down"))))
           (own_props page_call)
           (own_props (sample_descriptor (VStr "/me") Schemas.PAGE sample_types))
           (envelope (VBool true) (VStr "down")) (VStr "down") (VBool true)
           (Error "Normalize accepts an object or an array as its input.")
           (VStr "Normalize accepts an object or an array as its input."));
    try reflexivity.
  right. exists (VStr "down"). split; reflexivity.
Defined.

(** A fetch fulfilled without an envelope ([undefined] or [null]) is
    recovered: reading [response.data] throws inside [callFbog], the error
    thrown has a message, and the call ends with a failure action carrying
    it while the returned promise is fulfilled - unlike a fetch rejected
    with [undefined] or [null]. *)
Theorem missing_envelope_is_a_failure (E : env) (ps d : props) (response : value) :
  lookup CALL_FBOG ps = Some (VObj d) ->
  valid_descriptor E d = true ->
  fBfetch E (resolved E (field (KStr "endpoint") d)) = Fulfilled response ->
  nullish response = true ->
  exists l a,
    run E (VObj ps) = (l, [ENext a], Settled (Fulfilled (next E a))) /\
    a = actionWith (VObj ps)
          [(KStr "type", failureType d);
           (KStr "error", field (KStr "message") (own_props TypeError))].
Proof.
  intros H Hv Hf Hn.
  rewrite (run_valid E ps d H Hv), on_settle_eq, Hf.
  eexists _, _. destruct response; try discriminate; split; reflexivity.
Qed.

Lemma missing_envelope_is_a_failure_witness :
  exists l a,
    run (sample_env (Fulfilled VUndefined)) page_call =
    (l, [ENext a], Settled (Fulfilled VUndefined)) /\
    a = actionWith page_call
          [(KStr "type", VStr "PAGE_FAILURE");
           (KStr "error", field (KStr "message") (own_props TypeError))].
Proof.
  apply (missing_envelope_is_a_failure (sample_env (Fulfilled VUndefined))
           (own_props page_call)
           (own_props (sample_descriptor (VStr "/me") Schemas.PAGE sample_types))
           VUndefined); reflexivity.
Defined.

Lemma two_actions_unless_nullish_witness :
  exists request terminal,
    run (sample_env (Rejected (VObj [(KStr "message", VStr "boom")]))) page_call =
    ([ENext request; EFetch (VStr "/me")],
     [ENext terminal], Settled (Fulfilled VUndefined)) /\
    field (KStr "type") (own_props request) = VStr "PAGE_REQUEST" /\
    (field (KStr "type") (own_props terminal) = VStr "PAGE_SUCCESS" \/
     field (KStr "type") (own_props terminal) = VStr "PAGE_FAILURE").
Proof.
  apply (two_actions_unless_nullish
           (sample_env (Rejected (VObj [(KStr "message", VStr "boom")])))
           (own_props page_call)
           (own_props (sample_descriptor (VStr "/me") Schemas.PAGE sample_types)));
    try reflexivity.
  intros e He. injection He as <-. reflexivity.
Defined.

Lemma failure_action_error_witness :
  exists l a,
    run (sample_env (Fulfilled (envelope (VNum 0)
                                  (VObj [(KStr "message", VStr "")]))))
        page_call =
    (l, [ENext a], Settled (Fulfilled VUndefined)) /\
    field (KStr "type") (own_props a) = VStr "PAGE_FAILURE" /\
    field (KStr "error") (own_props a) = VStr placeholder.
Proof.
  apply (failure_action_error
           (sample_env (Fulfilled (envelope (VNum 0)
                                     (VObj [(KStr "message", VStr "")]))))
           (own_props page_call)
           (own_props (sample_descriptor (VStr "/me") Schemas.PAGE sample_types))
           (VObj [(KStr "message", VStr "")]) (VStr "")); reflexivity.
Defined.

(** Validation only asks for a truthy schema.  A schema that is no object
    (a non-empty string, a number, [true], an array) passes it, the request
    action is forwarded and the fetch is made, and only [normalize] refuses
    it: a successful envelope then ends in a failure action whose error is
    the complaint of [normalize]. *)
Theorem unchecked_schema_fails_late (st : value) (fn : nat -> value -> value)
    (nx : value -> value) (ft : value -> settled) (ps d : props)
    (response data ok : value) :
  lookup CALL_FBOG ps = Some (VObj d) ->
  valid_descriptor (with_packages st fn nx ft) d = true ->
  Normalizr.schema_of (field (KStr "schema") d) = None ->
  ft (resolved (with_packages st fn nx ft) (field (KStr "endpoint") d))
  = Fulfilled response ->
  get_prop response (KStr "data") = Return data ->
  get_prop response (KStr "ok") = Return ok ->
  truthy ok = true ->
  is_object (Humps.camelizeKeys data) = true ->
  exists a,
    run (with_packages st fn nx ft) (VObj ps) =
    (resolving (with_packages st fn nx ft) (field (KStr "endpoint") d)
       ++ [ENext (actionWith (VObj ps) [(KStr "type", requestType d)]);
           EFetch (resolved (with_packages st fn nx ft) (field (KStr "endpoint") d))],
     [ENext a], Settled (Fulfilled (nx a))) /\
    a = actionWith (VObj ps)
          [(KStr "type", failureType d);
           (KStr "error", VStr "Normalize accepts an object for schema.")].
Proof.
  intros H Hv Hs Hf Hd Ho Ht Hobj.
  rewrite (run_valid _ ps d H Hv), on_settle_eq.
  cbn [fBfetch with_packages p_schema pending_of]. rewrite Hf.
  unfold callFbog_settle, callFbog_then.
  rewrite Hd, Ho. cbn [lift bind app camelizeKeys normalize with_packages].
  rewrite Ht. cbn [negb lift bind app].
  unfold Normalizr.normalize. rewrite Hobj, Hs.
  eexists. split; reflexivity.
Qed.

Lemma unchecked_schema_fails_late_witness :
  exists a,
    run (sample_env (Fulfilled (envelope (VBool true) page_without_id)))
        (sample_action (sample_descriptor (VStr "/me") (VStr "pages") sample_types)) =
    ([ENext (VObj [(KStr "type", VStr "PAGE_REQUEST"); (KStr "login", VStr "acao")]);
      EFetch (VStr "/me")],
     [ENext a], Settled (Fulfilled VUndefined)) /\
    a = VObj [(KStr "type", VStr "PAGE_FAILURE"); (KStr "login", VStr "acao");
              (KStr "error", VStr "Normalize accepts an object for schema.")].
Proof.
  apply (unchecked_schema_fails_late sample_state (fun _ _ => VStr "/me/events")
           (fun _ => VUndefined)
           (fun _ => Fulfilled (envelope (VBool true) page_without_id))
           (own_props (sample_action
              (sample_descriptor (VStr "/me") (VStr "pages") sample_types)))
           (own_props (sample_descriptor (VStr "/me") (VStr "pages") sample_types))
           (envelope (VBool true) page_without_id) page_without_id (VBool true));
    reflexivity.
Defined.

(** ** Normalization against an array of events *)

Lemma visit_event_ref (v : value) (bag : props) :
  fst (Normalizr.visit eventSchema v bag) = event_ref v.
Proof.
  rewrite visit_event_eq. unfold event_ref.
  destruct (is_object v); [apply fst_visitEntity|reflexivity].
Qed.

Lemma table_set (entityKey : string) (t : props) (bag : props) :
  Normalizr.table entityKey (set (KStr entityKey) (VObj t) bag) = t.
Proof.
  unfold Normalizr.table. rewrite lookup_set, key_eqb_refl. reflexivity.
Qed.

(** Visiting an event writes its record under the text of its id and keeps
    every other record of the table. *)
Lemma visit_event_table (v : value) (bag : props) (k : key) :
  is_object v = true ->
  (key_eqb (KStr (Normalizr.to_key (event_ref v))) k = true ->
   exists r, lookup k (Normalizr.table "events"
                         (snd (Normalizr.visit eventSchema v bag))) = Some r)
  /\ (key_eqb (KStr (Normalizr.to_key (event_ref v))) k = false ->
      lookup k (Normalizr.table "events" (snd (Normalizr.visit eventSchema v bag)))
      = lookup k (Normalizr.table "events" bag)).
Proof.
  intros Hobj. rewrite visit_event_eq. unfold event_ref. rewrite Hobj.
  unfold Normalizr.visitEntity. rewrite visitObject_plain. cbn [snd].
  set (idk := KStr (Normalizr.to_key
                      match get_prop v (KStr "id") with
                      | Return i => i
                      | Throw _ => VUndefined
                      end)).
  rewrite table_set.
  set (bag1 := if has_key (KStr "events") bag then bag
               else set (KStr "events") (VObj []) bag).
  assert (H1 : Normalizr.table "events" bag1 = Normalizr.table "events" bag).
  { unfold bag1. rewrite has_key_lookup.
    destruct (lookup (KStr "events") bag) eqn:Hl; [reflexivity|].
    rewrite table_set. unfold Normalizr.table. rewrite Hl. reflexivity. }
  split; intros Hk; rewrite lookup_set, Hk; [eexists; reflexivity|].
  destruct (has_key idk (Normalizr.table "events" bag1));
    [rewrite H1; reflexivity|].
  rewrite table_set, lookup_set, Hk, H1. reflexivity.
Qed.

Lemma visit_event_monotone (v : value) (bag : props) (k : key) :
  lookup k (Normalizr.table "events" bag) <> None ->
  lookup k (Normalizr.table "events" (snd (Normalizr.visit eventSchema v bag)))
  <> None.
Proof.
  intros H. destruct (is_object v) eqn:Hobj.
  - destruct (visit_event_table v bag k Hobj) as [Hin Hout].
    destruct (key_eqb (KStr (Normalizr.to_key (event_ref v))) k).
    + destruct (Hin eq_refl) as [r ->]. discriminate.
    + rewrite (Hout eq_refl). exact H.
  - rewrite visit_event_eq, Hobj. exact H.
Qed.

Lemma visit_items_events (xs : list value) (bag : props) :
  fst (Normalizr.visit_items (Normalizr.visit eventSchema) xs bag)
  = map event_ref xs
  /\ (forall k, lookup k (Normalizr.table "events" bag) <> None ->
                lookup k (Normalizr.table "events"
                            (snd (Normalizr.visit_items
                                    (Normalizr.visit eventSchema) xs bag))) <> None)
  /\ (forall x, In x xs -> is_object x = true ->
                lookup (KStr (Normalizr.to_key (event_ref x)))
                  (Normalizr.table "events"
                     (snd (Normalizr.visit_items
                             (Normalizr.visit eventSchema) xs bag))) <> None).
Proof.
  revert bag. induction xs as [|x xs IH]; intros bag.
  - simpl. split; [reflexivity|]. split; [auto|]. intros x [].
  - cbn [Normalizr.visit_items].
    pose proof (visit_event_ref x bag) as Hr.
    pose proof (fun k => visit_event_monotone x bag k) as Hm.
    pose proof (fun H => proj1 (visit_event_table x bag
                  (KStr (Normalizr.to_key (event_ref x))) H)) as Hx.
    destruct (Normalizr.visit eventSchema x bag) as [y bag1].
    cbn [fst snd] in Hr, Hm, Hx. subst y.
    destruct (IH bag1) as (Hrefs & Hmono & Hall).
    destruct (Normalizr.visit_items (Normalizr.visit eventSchema) xs bag1)
      as [ys bag2].
    cbn [fst snd] in *. subst ys.
    split; [reflexivity|]. split.
    + intros k Hk. apply Hmono, Hm, Hk.
    + intros z [<-|Hz] Hobj.
      * apply Hmono. destruct (Hx Hobj (key_eqb_refl _)) as [r ->]. discriminate.
      * apply Hall; assumption.
Qed.

(** Normalized against [Schemas.EVENT_ARRAY], an array of events gives as
    [result] the list of the ids of its events in the order of the input
    (an element that is no object stays as it is), and [entities.events]
    has a record under the text of the id of every event. *)
Theorem event_array_result (xs : list value) :
  exists bag,
    Normalizr.normalize (VArr xs) Schemas.EVENT_ARRAY =
    Return (VObj [(KStr "entities", VObj bag);
                  (KStr "result", VArr (map event_ref xs))]) /\
    forall x, In x xs -> is_object x = true ->
      exists record,
        lookup (KStr (Normalizr.to_key (event_ref x)))
          (Normalizr.table "events" bag) = Some record.
Proof.
  destruct (visit_items_events xs []) as (Hrefs & _ & Hall).
  exists (snd (Normalizr.visit_items (Normalizr.visit eventSchema) xs [])).
  split.
  - unfold Normalizr.normalize.
    cbn [is_object negb Schemas.EVENT_ARRAY Normalizr.schema_of].
    change (Normalizr.visit (ArraySchema eventSchema) (VArr xs) [])
      with (Normalizr.visitIterable (Normalizr.visit eventSchema) (VArr xs) []).
    unfold Normalizr.visitIterable.
    destruct (Normalizr.visit_items (Normalizr.visit eventSchema) xs [])
      as [ys bag]. cbn [fst snd] in *. subst ys. reflexivity.
  - intros x Hin Hobj. specialize (Hall x Hin Hobj).
    destruct (lookup _ _) as [r|]; [exists r; reflexivity|contradiction].
Qed.

(** Normalized against [Schemas.EVENT], an event is its own only record:
    [result] is its id, and [entities.events] holds under the text of that
    id a record with exactly the string-keyed fields of the event. *)
Theorem event_record_round_trip (eps : props) :
  exists record,
    Normalizr.normalize (VObj eps) Schemas.EVENT =
    Return (VObj [(KStr "entities",
                   VObj [(KStr "events",
                          VObj [(KStr (Normalizr.to_key (field (KStr "id") eps)),
                                 VObj record)])]);
                  (KStr "result", field (KStr "id") eps)]) /\
    forall k, lookup (KStr k) record = lookup (KStr k) eps.
Proof.
  exists (assign [] (map kv (enumerate (VObj eps)))). split.
  - unfold Normalizr.normalize.
    cbn [is_object negb Schemas.EVENT Normalizr.schema_of].
    rewrite (visit_event_fresh eps [] eq_refl).
    unfold set. cbn [has_key existsb app fst map key_eqb String.eqb Ascii.eqb
                     Bool.eqb orb].
    reflexivity.
  - intros k. rewrite lookup_copy. apply lookup_enumerate.
Qed.

(** ** The error of a failure action is never falsy *)

(** Whatever the promise of [callFbog] is rejected with, short of
    [undefined] and [null], the [error] of the failure action is truthy: a
    falsy message ([undefined], [null], [false], [0], [NaN], the empty
    string) is replaced by the placeholder. *)
Theorem failure_error_is_truthy (E : env) (ps d : props) (error : value) :
  lookup CALL_FBOG ps = Some (VObj d) ->
  valid_descriptor E d = true ->
  snd (callFbog_settle E (field (KStr "schema") d)
         (fBfetch E (resolved E (field (KStr "endpoint") d)))) = Rejected error ->
  nullish error = false ->
  exists a,
    snd (fst (run E (VObj ps))) = [ENext a] /\
    truthy (field (KStr "error") (own_props a)) = true.
Proof.
  intros H Hv Hs Hn. rewrite (run_valid E ps d H Hv), on_settle_eq.
  cbn [p_schema pending_of fst snd]. rewrite Hs.
  destruct (get_prop error (KStr "message")) as [message|e] eqn:Hm.
  - unfold reactions, error_text. rewrite Hm.
    cbn [lift bind app settle_with do_next emit ret fst snd
         p_action p_failureType pending_of].
    eexists. split; [reflexivity|].
    unfold field. rewrite lookup_actionWith. cbn [key_eqb CALL_FBOG lookup].
    cbn [String.eqb Ascii.eqb Bool.eqb].
    destruct (truthy message) eqn:Ht; [exact Ht|reflexivity].
  - destruct error; simpl in Hm; discriminate.
Qed.

Lemma failure_error_is_truthy_witness :
  exists a,
    snd (fst (run (sample_env (Rejected (VObj [(KStr "message", VNum 0)])))
                page_call)) = [ENext a] /\
    truthy (field (KStr "error") (own_props a)) = true.
Proof.
  apply (failure_error_is_truthy
           (sample_env (Rejected (VObj [(KStr "message", VNum 0)])))
           (own_props page_call)
           (own_props (sample_descriptor (VStr "/me") Schemas.PAGE sample_types))
           (VObj [(KStr "message", VNum 0)])); reflexivity.
Defined.
